(** * AARVIK PDF question answering: the session API of [server.py]

    A shallow embedding of the FastAPI handlers of [src/server.py]
    ([create_session], [upload_pdf] with its helper [process_pdf],
    [ask_question], [delete_session]) and the properties of their error
    handling and of the session store; then the choice of the Gemini model
    at start-up, and the functions of the Streamlit page [src/app.py] that
    call the handlers.

    Conventions of the embedding.
    - The Mongo collection [db.sessions] is a list of documents (a collection
      has no uniqueness constraint on [session_id]; [find_one], [update_one]
      and [delete_one] act on the first match).
    - The working directory is a finite map from path to what the index
      directory there holds: a saved index, or what a [save_local] that
      raised left behind.
    - A handler is a function from the store to a result and a new store: a
      Python exception does not undo the writes made before it.
    - PyPDF2, the text splitter, FAISS, the embedding model and the Gemini
      chain are outside the repository: they are the fields of the class
      [Libraries], and every statement holds for all of them.
    - A storage call (Mongo, disk) may raise: [faults] tells, for one request,
      which calls do.
    - A Python [str] is a [string] of code points below 256.
    - [logger] calls write to the process log only and are left out. *)

From stdpp Require Import base strings pretty list gmap.
From Stdlib Require Import Ascii.

Local Open Scope nat_scope.

(** ** Exceptions and results *)

(** The exceptions the handlers tell apart: FastAPI's [HTTPException], the
    [FileNotFoundError] caught in [delete_session], and every other subclass
    of [Exception]. *)
Inductive exn :=
  | HTTPException (status_code : nat) (detail : string)
  | FileNotFoundError (path : string)
  | OtherError (msg : string).

Inductive result (A : Type) :=
  | Ok (a : A)
  | Raise (e : exn).
Arguments Ok {A} a.
Arguments Raise {A} e.

(** [except Exception] and [except FileNotFoundError]. *)
Definition is_Exception (e : exn) : bool := true.

Definition is_FileNotFoundError (e : exn) : bool :=
  match e with FileNotFoundError _ => true | _ => false end.

(** ** Python string operations used by the handlers *)

(** [str.isspace] on one code point below 256: TAB..CR, FS..US, space,
    NEL and NBSP. *)
Definition isspace (c : ascii) : bool :=
  let n := nat_of_ascii c in
  ((9 <=? n) && (n <=? 13)) || ((28 <=? n) && (n <=? 32))
  || (n =? 133) || (n =? 160).

Fixpoint lstrip (s : string) : string :=
  match s with
  | EmptyString => EmptyString
  | String c s' => if isspace c then lstrip s' else s
  end.

Definition rstrip (s : string) : string := String.rev (lstrip (String.rev s)).

Definition strip (s : string) : string := rstrip (lstrip s).

(** Truth value of a [str]: false exactly for the empty string. *)
Definition truthy (s : string) : bool :=
  match s with EmptyString => false | String _ _ => true end.

Definition endswith (s suffix : string) : bool :=
  let n := String.length s in
  let m := String.length suffix in
  (m <=? n) && String.eqb (String.substring (n - m) m s) suffix.

(** [x or ""] for [x] a [str] or [None]. *)
Definition or_empty (x : option string) : string :=
  match x with
  | Some s => if truthy s then s else ""
  | None => ""
  end.

(** ** External libraries *)

Class Libraries := {
  (** the binary stream [file.file] of an upload *)
  pdf : Type;
  (** a page object of PyPDF2 *)
  page : Type;
  (** [PdfReader(file.file).pages] *)
  PdfReader : pdf → result (list page);
  (** [page.extract_text()] *)
  extract_text : page → result (option string);
  (** [RecursiveCharacterTextSplitter(chunk_size, chunk_overlap).split_text] *)
  split_text : nat → nat → string → list string;
  (** a FAISS vector store *)
  index : Type;
  (** [FAISS.from_texts(texts, embeddings)] *)
  from_texts : list string → result index;
  (** [RetrievalQA.from_chain_type(llm, "stuff", retriever).invoke] and the
      ["result"] field of its answer *)
  qa_invoke : index → string → result string;
  (** [str(e)] *)
  str : exn → string;
}.

(** ** The store: session documents and index directories *)

Record session := {
  session_id : string;
  pdf_processed : bool;
  pdf_name : option string;
}.

(** What an index directory [faiss_index_<session_id>] holds: the index that
    [save_local] wrote, or, after a [save_local] that raised part-way, no
    complete index ([os.path.exists] holds, [FAISS.load_local] raises). *)
Inductive directory `{Libraries} :=
  | Saved (vector_store : index)
  | Incomplete.

Record store `{Libraries} := {
  sessions : list session;
  disk : gmap string directory;
}.

Definition set_sessions `{Libraries} (docs : list session) (σ : store) : store :=
  {| sessions := docs; disk := disk σ |}.

Definition set_disk `{Libraries} (d : gmap string directory) (σ : store) : store :=
  {| sessions := sessions σ; disk := d |}.

(** The storage calls of the handlers, and the exception each raises in one
    request, if any. *)
Inductive call :=
  | InsertOne | FindOne | UpdateOne | DeleteOne
  | SaveLocal | LoadLocal | Rmtree.

Definition faults := call → option exn.

Definition no_faults : faults := λ _, None.

(** ** The handler monad *)

Definition M `{Libraries} (A : Type) : Type := store → result A * store.

Definition ret `{Libraries} {A} (a : A) : M A := λ σ, (Ok a, σ).

Definition raise `{Libraries} {A} (e : exn) : M A := λ σ, (Raise e, σ).

Definition bind `{Libraries} {A B} (m : M A) (k : A → M B) : M B :=
  λ σ, match m σ with
       | (Ok a, σ') => k a σ'
       | (Raise e, σ') => (Raise e, σ')
       end.

#[global] Instance M_ret `{Libraries} : MRet M := @ret _.
#[global] Instance M_bind `{Libraries} : MBind M := λ A B k m, bind m k.

(** [try: body except E as e: handler e], where [catches] is the test
    [isinstance(e, E)]. *)
Definition try_except `{Libraries} {A}
    (body : M A) (catches : exn → bool) (handler : exn → M A) : M A :=
  λ σ, match body σ with
       | (Raise e, σ') => if catches e then handler e σ' else (Raise e, σ')
       | r => r
       end.

(** A value computed by a library call. *)
Definition lift `{Libraries} {A} (r : result A) : M A := λ σ, (r, σ).

(** A storage call: it raises what [φ] says, or runs. *)
Definition io `{Libraries} {A} (φ : faults) (c : call) (m : M A) : M A :=
  λ σ, match φ c with
       | Some e => (Raise e, σ)
       | None => m σ
       end.

(** ** Storage calls *)

Section handlers.
Context `{Libraries}.

(** [db.sessions.insert_one(doc)] *)
Definition insert_one (φ : faults) (doc : session) : M unit :=
  io φ InsertOne (λ σ, (Ok (), set_sessions (sessions σ ++ [doc]) σ)).

(** [db.sessions.find_one({"session_id": id})] *)
Definition find_doc (id : string) (docs : list session) : option session :=
  List.find (λ d, String.eqb (session_id d) id) docs.

Definition find_one (φ : faults) (id : string) : M (option session) :=
  io φ FindOne (λ σ, (Ok (find_doc id (sessions σ)), σ)).

(** [db.sessions.update_one({"session_id": id},
      {"$set": {"pdf_processed": True, "pdf_name": name}}, upsert=True)]:
    the first matching document is updated; without a match a new document
    is inserted. *)
Fixpoint set_processed (id name : string) (docs : list session) : list session :=
  match docs with
  | [] => [ {| session_id := id; pdf_processed := true; pdf_name := Some name |} ]
  | d :: ds =>
      if String.eqb (session_id d) id
      then {| session_id := session_id d; pdf_processed := true;
              pdf_name := Some name |} :: ds
      else d :: set_processed id name ds
  end.

Definition update_one (φ : faults) (id name : string) : M unit :=
  io φ UpdateOne (λ σ, (Ok (), set_sessions (set_processed id name (sessions σ)) σ)).

(** [db.sessions.delete_one({"session_id": id})]: the first matching document
    is removed; the answer is [deleted_count]. *)
Fixpoint remove_first (id : string) (docs : list session) : nat * list session :=
  match docs with
  | [] => (0, [])
  | d :: ds =>
      if String.eqb (session_id d) id then (1, ds)
      else let '(n, ds') := remove_first id ds in (n, d :: ds')
  end.

Definition delete_one (φ : faults) (id : string) : M nat :=
  io φ DeleteOne (λ σ,
    let '(n, docs) := remove_first id (sessions σ) in
    (Ok n, set_sessions docs σ)).

(** [f"faiss_index_{session_id}"] *)
Definition index_path (session_id : string) : string :=
  "faiss_index_" +:+ session_id.

(** [os.path.exists(path)] *)
Definition path_exists (path : string) : M bool :=
  λ σ, (Ok (bool_decide (is_Some (disk σ !! path))), σ).

(** [vector_store.save_local(path)]: FAISS makes the directory
    ([path.mkdir(parents=True, exist_ok=True)]), then writes the index and
    its docstore into it. When all goes through the directory holds the new
    index, whatever it held before; a [save_local] that raises does so while
    writing, and leaves the directory behind without a complete index. *)
Definition save_local (φ : faults) (vector_store : index) (path : string) : M unit :=
  λ σ, match φ SaveLocal with
       | Some e => (Raise e, set_disk (<[path := Incomplete]> (disk σ)) σ)
       | None => (Ok (), set_disk (<[path := Saved vector_store]> (disk σ)) σ)
       end.

(** [FAISS.load_local(path, embeddings, ...)] *)
Definition load_local (φ : faults) (path : string) : M index :=
  io φ LoadLocal (λ σ,
    match disk σ !! path with
    | Some (Saved vector_store) => (Ok vector_store, σ)
    | _ => (Raise (OtherError "RuntimeError"), σ)
    end).

(** [shutil.rmtree(path)] *)
Definition rmtree (φ : faults) (path : string) : M unit :=
  io φ Rmtree (λ σ,
    match disk σ !! path with
    | Some _ => (Ok (), set_disk (delete path (disk σ)) σ)
    | None => (Raise (FileNotFoundError path), σ)
    end).

End handlers.

(** ** Requests and responses *)

(** [UploadFile]: the client's file name and the binary stream [file.file]. *)
Record UploadFile `{Libraries} := {
  filename : string;
  stream : pdf;
}.

(** The request body of [ask_question]. *)
Record Question := {
  question_session_id : string;
  question : string;
}.

(** The JSON objects the handlers return: [{"session_id": _}],
    [{"message": _}] and [{"answer": _}]. *)
Inductive response :=
  | SessionResponse (session_id : string)
  | MessageResponse (message : string)
  | AnswerResponse (answer : string).

(** The status FastAPI answers with: 200 for a returned value, the status of
    an [HTTPException], 500 for any other exception that leaves the handler. *)
Definition http_status {A} (r : result A) : nat :=
  match r with
  | Ok _ => 200
  | Raise (HTTPException status_code _) => status_code
  | Raise _ => 500
  end.

(** ** The handlers of [server.py] *)

Section server.
Context `{Libraries}.
Variable φ : faults.

(** The loop of [process_pdf] over [pdf_reader.pages]; [text] is the text
    accumulated so far. *)
Fixpoint extract_pages (pages : list page) (text : string) : M string :=
  match pages with
  | [] => mret text
  | page :: pages' =>
      extracted_text ← lift (extract_text page);
      extract_pages pages' (text +:+ or_empty extracted_text)
  end.

Definition process_pdf (file : UploadFile) (session_id : string) : M bool :=
  try_except
    (pages ← lift (PdfReader (stream file));
     text ← extract_pages pages "";
     if negb (truthy (strip text))
     then raise (HTTPException 400 "PDF contains no extractable text")
     else
       let texts := split_text 1000 200 text in
       vector_store ← lift (from_texts texts);
       save_local φ vector_store (index_path session_id);;
       update_one φ session_id (filename file);;
       mret true)
    is_Exception
    (λ e, raise (HTTPException 500 ("Error processing PDF: " +:+ str e))).

(** [uuid4] is the value of [str(uuid.uuid4())] in this request. *)
Definition create_session (uuid4 : string) : M response :=
  let session_id := uuid4 in
  insert_one φ {| session_id := session_id; pdf_processed := false;
                  pdf_name := None |};;
  mret (SessionResponse session_id).

Definition upload_pdf (session_id : string) (file : UploadFile) : M response :=
  if negb (endswith (filename file) ".pdf")
  then raise (HTTPException 400 "File must be a PDF")
  else
    session ← find_one φ session_id;
    match session with
    | None => raise (HTTPException 404 "Session not found")
    | Some _ =>
        process_pdf file session_id;;
        mret (MessageResponse
                ("PDF uploaded and processed for session " +:+ session_id))
    end.

Definition ask_question (q : Question) : M response :=
  session ← find_one φ (question_session_id q);
  match session with
  | None => raise (HTTPException 404 "Session not found")
  | Some session =>
      if negb (pdf_processed session)
      then raise (HTTPException 404 "No PDF processed for this session")
      else
        try_except
          (let index_path := index_path (question_session_id q) in
           found ← path_exists index_path;
           if negb found
           then raise (HTTPException 404 "FAISS index not found")
           else
             vector_store ← load_local φ index_path;
             response ← lift (qa_invoke vector_store (question q));
             mret (AnswerResponse response))
          is_Exception
          (λ e, raise (HTTPException 500 ("Error answering question: " +:+ str e)))
  end.

Definition delete_session (session_id : string) : M response :=
  deleted_count ← delete_one φ session_id;
  if deleted_count =? 0
  then raise (HTTPException 404 "Session not found")
  else
    try_except (rmtree φ (index_path session_id))
      is_FileNotFoundError
      (λ _, mret ());;
    mret (MessageResponse ("Session " +:+ session_id +:+ " deleted")).

End server.

(** ** One request against the store *)

Inductive request `{Libraries} :=
  | Create (uuid4 : string)
  | Upload (session_id : string) (file : UploadFile)
  | Ask (q : Question)
  | Delete (session_id : string).

Definition handle `{Libraries} (φ : faults) (r : request) : M response :=
  match r with
  | Create uuid4 => create_session φ uuid4
  | Upload session_id file => upload_pdf φ session_id file
  | Ask q => ask_question φ q
  | Delete session_id => delete_session φ session_id
  end.

(** The answer of a successful [delete_session]. *)
Definition deleted (session_id : string) : response :=
  MessageResponse ("Session " +:+ session_id +:+ " deleted").

(** ** The store invariant *)

Definition ids `{Libraries} (σ : store) : list string :=
  session_id <$> sessions σ.

Definition index_exists `{Libraries} (σ : store) (id : string) : Prop :=
  is_Some (disk σ !! index_path id).

(** Every session document is flagged processed exactly when the index
    directory of its session exists. *)
Definition consistent `{Libraries} (σ : store) : Prop :=
  ∀ d, d ∈ sessions σ →
    (index_exists σ (session_id d) ↔ pdf_processed d = true).

(** The invariant of the store: consistent documents under unique session
    identifiers. *)
Definition invariant `{Libraries} (σ : store) : Prop :=
  NoDup (ids σ) ∧ consistent σ.

(** What [uuid.uuid4()] provides: an identifier no document and no index
    directory carries yet. *)
Definition fresh `{Libraries} (uuid4 : string) (σ : store) : Prop :=
  (uuid4 ∉ ids σ) ∧ (disk σ !! index_path uuid4 = None).

(** The identifier a [Create] request draws is fresh. *)
Definition draws_fresh `{Libraries} (r : request) (σ : store) : Prop :=
  match r with
  | Create uuid4 => fresh uuid4 σ
  | _ => True
  end.

(** The two writes of an ingestion, [save_local] and [update_one], are not
    cut short by a storage error. *)
Definition writes_go_through `{Libraries} (φ : faults) (r : request) : Prop :=
  match r with
  | Upload _ _ => φ SaveLocal = None ∧ φ UpdateOne = None
  | _ => True
  end.

(** The concatenation, in page order, of what [extract_text] returned for
    each page, a page without text counting as the empty string. *)
Definition page_texts (extracted : list (option string)) : string :=
  foldr String.append "" (default "" <$> extracted).

(** [extract_text] returns [extracted], page by page, on [pages]. *)
Definition extracts `{Libraries}
    (pages : list page) (extracted : list (option string)) : Prop :=
  Forall2 (λ p x, extract_text p = Ok x) pages extracted.

(** ** Uploads that ingest, and the session a request names *)

(** The upload parses, its pages extract to a text that is not blank, and
    FAISS builds [vector_store] from the chunks of that text. *)
Definition ingestible `{Libraries} (file : UploadFile) (vector_store : index) : Prop :=
  ∃ pages extracted,
    PdfReader (stream file) = Ok pages
    ∧ extracts pages extracted
    ∧ strip (page_texts extracted) ≠ ""
    ∧ from_texts (split_text 1000 200 (page_texts extracted)) = Ok vector_store.

(** The session identifier a request carries. *)
Definition target `{Libraries} (r : request) : string :=
  match r with
  | Create uuid4 => uuid4
  | Upload session_id _ => session_id
  | Ask q => question_session_id q
  | Delete session_id => session_id
  end.

(** The answer of a successful [upload_pdf]. *)
Definition uploaded (session_id : string) : response :=
  MessageResponse ("PDF uploaded and processed for session " +:+ session_id).

(** The characters of a [str]. *)
Fixpoint chars (s : string) : list ascii :=
  match s with
  | EmptyString => []
  | String c s' => c :: chars s'
  end.

(** ** Start-up: the choice of the Gemini model ([server.py], lines 28-39) *)

(** [str.lower] on one code point below 256: A..Z and the capital letters of
    Latin-1 (all of 192..222 but the multiplication sign) move up by 32. *)
Definition lower_char (c : ascii) : ascii :=
  let n := nat_of_ascii c in
  if ((65 <=? n) && (n <=? 90))
     || ((192 <=? n) && (n <=? 222) && negb (n =? 215))
  then ascii_of_nat (n + 32)
  else c.

Fixpoint lower (s : string) : string :=
  match s with
  | EmptyString => EmptyString
  | String c s' => String (lower_char c) (lower s')
  end.

(** [sub in s] for two [str]. *)
Fixpoint contains (sub s : string) : bool :=
  String.prefix sub s
  || match s with
     | EmptyString => false
     | String _ s' => contains sub s'
     end.

(** A model as [genai.list_models()] describes it. *)
Record Model := {
  model_name : string;
  supported_generation_methods : list string;
}.

(** [[m.name for m in genai.list_models() if "gemini" in m.name.lower()
      and "generateContent" in m.supported_generation_methods]] *)
Definition available_models (models : list Model) : list string :=
  model_name <$>
    List.filter
      (λ m, contains "gemini" (lower (model_name m))
            && bool_decide ("generateContent" ∈ supported_generation_methods m))
      models.

(** [next((m for m in ["gemini-2.5-pro", "gemini-2.0-flash"]
           if m in available_models), "gemini-2.0-flash")] *)
Definition model_to_use (available_models : list string) : string :=
  match List.filter (λ m, bool_decide (m ∈ available_models))
          ["gemini-2.5-pro"; "gemini-2.0-flash"] with
  | m :: _ => m
  | [] => "gemini-2.0-flash"
  end.

(** The [try] block and its [except Exception]: [configure] and [list_models]
    are what [genai.configure] and [genai.list_models] do in this run,
    [ChatGoogleGenerativeAI] builds the client of a model. The result is the
    pair [(model_to_use, llm)], or the exception that ends the start-up. *)
Definition select_llm {LLM : Type}
    (configure : result ()) (list_models : result (list Model))
    (ChatGoogleGenerativeAI : string → result LLM) : result (string * LLM) :=
  let attempt :=
    match configure with
    | Raise e => Raise e
    | Ok _ =>
        match list_models with
        | Raise e => Raise e
        | Ok models =>
            let model_to_use := model_to_use (available_models models) in
            match ChatGoogleGenerativeAI model_to_use with
            | Ok llm => Ok (model_to_use, llm)
            | Raise e => Raise e
            end
        end
    end in
  match attempt with
  | Ok r => Ok r
  | Raise _ =>
      let model_to_use := "gemini-2.0-flash" in
      match ChatGoogleGenerativeAI model_to_use with
      | Ok llm => Ok (model_to_use, llm)
      | Raise e => Raise e
      end
  end.

(** A model of the listing carries exactly this name and generates content. *)
Definition offers (models : list Model) (name : string) : Prop :=
  ∃ m, m ∈ models ∧ model_name m = name
       ∧ "generateContent" ∈ supported_generation_methods m.

(** ** The Streamlit client ([app.py])

    The four functions of [app.py] that call the API. Each is given the reply
    of its HTTP request and the session state of the page; [st.spinner],
    [st.success], [st.error] and [time.sleep] only draw, and are left out but
    for the fact that an error was shown. *)

Module app.

(** An entry of [st.session_state.chat_history[session_id]]. *)
Record Turn := {
  question : string;
  answer : string;
  timestamp : string;
}.

(** An entry of [st.session_state.uploaded_files[session_id]]. *)
Record FileEntry := {
  name : string;
  size : nat;
  uploaded_at : string;
}.

(** [st.session_state] *)
Record SessionState := {
  session_id : option string;
  sessions : list string;
  chat_history : gmap string (list Turn);
  uploaded_files : gmap string (list FileEntry);
}.

(** What [requests.post] and [requests.delete] give: a response with its
    status and JSON body (a value of the handler, or FastAPI's
    [{"detail": _}]), or a [RequestException] for want of a response. *)
Inductive Json :=
  | Body (r : response)
  | Detail (detail : string).

Inductive Reply :=
  | Response (status_code : nat) (json : Json)
  | RequestException (e : string).

(** [response.raise_for_status()] raises [HTTPError], a [RequestException],
    on a status from 400 to 599. *)
Definition raise_for_status (status_code : nat) : bool :=
  (400 <=? status_code) && (status_code <? 600).

(** How a call ends: [st.rerun()], a returned answer, [st.error] in the
    [except requests.RequestException] (the function then returns [None]),
    or an exception the function does not catch. *)
Inductive Outcome :=
  | Rerun
  | Returned (answer : string)
  | ErrorShown
  | Uncaught (e : string).

(** [list.remove(x)]: the list without the first [x]. *)
Fixpoint remove (x : string) (l : list string) : list string :=
  match l with
  | [] => []
  | y :: l' => if String.eqb y x then l' else y :: remove x l'
  end.

Definition create_session (reply : Reply) (st : SessionState)
    : Outcome * SessionState :=
  match reply with
  | RequestException _ => (ErrorShown, st)
  | Response status_code json =>
      if raise_for_status status_code then (ErrorShown, st)
      else
        match json with
        | Body (SessionResponse id) =>
            (Rerun,
             {| session_id := Some id;
                sessions := sessions st ++ [id];
                chat_history := <[id := []]> (chat_history st);
                uploaded_files := <[id := []]> (uploaded_files st) |})
        | _ => (Uncaught "KeyError", st)
        end
  end.

Definition delete_session (id : string) (reply : Reply) (st : SessionState)
    : Outcome * SessionState :=
  match reply with
  | RequestException _ => (ErrorShown, st)
  | Response status_code json =>
      if raise_for_status status_code then (ErrorShown, st)
      else if bool_decide (id ∈ sessions st)
      then
        (Rerun,
         {| session_id :=
              if bool_decide (session_id st = Some id) then None else session_id st;
            sessions := remove id (sessions st);
            chat_history := delete id (chat_history st);
            uploaded_files := delete id (uploaded_files st) |})
      else (Uncaught "ValueError", st)
  end.

(** [file_name] and [file_size] are [file.name] and [file.size]; [now] is
    [datetime.now().strftime("%Y-%m-%d %H:%M:%S")]. *)
Definition upload_pdf (id : string) (file_name : string) (file_size : nat)
    (now : string) (reply : Reply) (st : SessionState) : Outcome * SessionState :=
  match reply with
  | RequestException _ => (ErrorShown, st)
  | Response status_code json =>
      if raise_for_status status_code then (ErrorShown, st)
      else
        let entry := {| name := file_name; size := file_size; uploaded_at := now |} in
        let st' :=
          {| session_id := session_id st;
             sessions := sessions st;
             chat_history := chat_history st;
             uploaded_files :=
               <[id := default [] (uploaded_files st !! id) ++ [entry]]>
                 (uploaded_files st) |} in
        match json with
        | Body (MessageResponse _) => (Rerun, st')
        | _ => (Uncaught "KeyError", st')
        end
  end.

Definition ask_question (id : string) (question : string) (now : string)
    (reply : Reply) (st : SessionState) : Outcome * SessionState :=
  match reply with
  | RequestException _ => (ErrorShown, st)
  | Response status_code json =>
      if raise_for_status status_code then (ErrorShown, st)
      else
        match json with
        | Body (AnswerResponse answer) =>
            let turn := {| question := question; answer := answer;
                           timestamp := now |} in
            (Returned answer,
             {| session_id := session_id st;
                sessions := sessions st;
                chat_history :=
                  <[id := default [] (chat_history st !! id) ++ [turn]]>
                    (chat_history st);
                uploaded_files := uploaded_files st |})
        | _ => (Uncaught "KeyError", st)
        end
  end.

(** The session state of a page that opens. *)
Definition initial : SessionState :=
  {| session_id := None; sessions := []; chat_history := ∅; uploaded_files := ∅ |}.

End app.

(** ** The client against the server *)

(** The response FastAPI sends for what a handler returns or raises. *)
Definition serve (r : result response) : app.Reply :=
  match r with
  | Ok body => app.Response 200 (app.Body body)
  | Raise (HTTPException status_code detail) =>
      app.Response status_code (app.Detail detail)
  | Raise _ => app.Response 500 (app.Detail "Internal Server Error")
  end.

(** A click in the page: the request reaches the server, the handler runs on
    the store, and the client function goes on with the response. The
    identifier travels as it is (in the path, the query string or the JSON
    body), which is right for the [uuid4] strings the server hands out; the
    upload carries [file.name] as its file name. *)
Inductive click `{Libraries} :=
  | ClickCreate (uuid4 : string)
  | ClickDelete (id : string)
  | ClickUpload (id : string) (file : UploadFile) (file_size : nat) (now : string)
  | ClickAsk (id : string) (question : string) (now : string).

Definition run_click `{Libraries} (φ : faults) (c : click)
    (st : app.SessionState) (σ : store) : app.Outcome * app.SessionState * store :=
  match c with
  | ClickCreate uuid4 =>
      let '(r, σ') := create_session φ uuid4 σ in
      (app.create_session (serve r) st, σ')
  | ClickDelete id =>
      let '(r, σ') := delete_session φ id σ in
      (app.delete_session id (serve r) st, σ')
  | ClickUpload id file file_size now =>
      let '(r, σ') := upload_pdf φ id file σ in
      (app.upload_pdf id (filename file) file_size now (serve r) st, σ')
  | ClickAsk id question now =>
      let '(r, σ') :=
        ask_question φ {| question_session_id := id; question := question |} σ in
      (app.ask_question id question now (serve r) st, σ')
  end.

(** The page and the server agree: the listed sessions are distinct, each has
    a document on the server, a chat history and a file list, and the
    selected session is listed. *)
Definition agree `{Libraries} (st : app.SessionState) (σ : store) : Prop :=
  NoDup (app.sessions st)
  ∧ (∀ id, id ∈ app.sessions st →
       id ∈ ids σ
       ∧ is_Some (app.chat_history st !! id)
       ∧ is_Some (app.uploaded_files st !! id))
  ∧ (∀ id, app.session_id st = Some id → id ∈ app.sessions st).


(** ** The settings of the server ([server.py], lines 22-26) *)

(** [os.getenv(name)] on the environment left by [load_dotenv()]. *)
Definition getenv (environ : gmap string string) (name : string) : option string :=
  environ !! name.

(** The three module variables read from the environment; the module reads
    no other setting. *)
Record Settings := {
  MONGO_URL : option string;
  DB_NAME : option string;
  GOOGLE_AI_API_KEY : option string;
}.

Definition load_settings (environ : gmap string string) : Settings :=
  {| MONGO_URL := getenv environ "MONGO_URL";
     DB_NAME := getenv environ "DB_NAME";
     GOOGLE_AI_API_KEY := getenv environ "GOOGLE_AI_API_KEY" |}.

(** ** A test double for the libraries

    A PDF is the list of what each page yields, the splitter returns the text
    as one chunk, an index is the list of its chunks, the chain answers with
    the first chunk, and [str] of an [HTTPException] is Starlette's
    ["status: detail"]. It instantiates the statements below on concrete
    stores. *)
Definition mock : Libraries := {|
  pdf := list (option string);
  page := option string;
  PdfReader := λ f, Ok f;
  extract_text := λ p, Ok p;
  split_text := λ chunk_size chunk_overlap text, [text];
  index := list string;
  from_texts := λ texts, Ok texts;
  qa_invoke := λ vector_store q, Ok (default "" (head vector_store));
  str := λ e, match e with
              | HTTPException status_code detail =>
                  pretty status_code +:+ ": " +:+ detail
              | FileNotFoundError path => path
              | OtherError msg => msg
              end;
|}.

(** A second test double, whose splitter answers with the two options it was
    constructed with instead of chunks: the index of an upload then shows
    how the splitter of [process_pdf] was configured. *)
Definition probe : Libraries := {|
  pdf := list (option string);
  page := option string;
  PdfReader := λ f, Ok f;
  extract_text := λ p, Ok p;
  split_text := λ chunk_size chunk_overlap text,
    ["chunk_size=" +:+ pretty chunk_size; "chunk_overlap=" +:+ pretty chunk_overlap];
  index := list string;
  from_texts := λ texts, Ok texts;
  qa_invoke := λ vector_store q, Ok (default "" (head vector_store));
  str := @str mock;
|}.

(** ** Sample stores and requests over the test double *)

Definition pending : session :=
  {| session_id := "s1"; pdf_processed := false; pdf_name := None |}.

Definition processed : session :=
  {| session_id := "s1"; pdf_processed := true; pdf_name := Some "notes.pdf" |}.

(** A session that was created and nothing else. *)
Definition store_pending : @store mock :=
  {| sessions := [pending]; disk := ∅ |}.

(** A session after a successful upload. *)
Definition store_processed : @store mock :=
  {| sessions := [processed];
     disk := {[ "faiss_index_s1" := @Saved mock ["The capital of Freedonia is Lastonia."] ]} |}.

(** A session flagged processed whose index directory is gone. *)
Definition store_lost : @store mock :=
  {| sessions := [processed]; disk := ∅ |}.

(** A scanned document: one page of blanks, one page without text. *)
Definition scan_pdf : @UploadFile mock :=
  @Build_UploadFile mock "scan.pdf" [Some "  "; None].

Definition notes_pdf : @UploadFile mock :=
  @Build_UploadFile mock "notes.pdf"
    [Some "The capital of Freedonia "; None; Some "is Lastonia."].

Definition notes_txt : @UploadFile mock :=
  @Build_UploadFile mock "notes.txt" [Some "The capital of Freedonia is Lastonia."].

Definition capital : Question :=
  {| question_session_id := "s1"; question := "What is the capital of Freedonia?" |}.

(** A second document for the same session. *)
Definition errata_pdf : @UploadFile mock :=
  @Build_UploadFile mock "errata.pdf" [Some "The capital of Freedonia is Fredville."].

(** A listing as the Gemini API gives it, names under ["models/"], and one
    with bare names. *)
Definition listing_prefixed : list Model :=
  [ {| model_name := "models/gemini-2.5-pro";
       supported_generation_methods := ["generateContent"; "countTokens"] |};
    {| model_name := "models/embedding-001";
       supported_generation_methods := ["embedContent"] |} ].

Definition listing_bare : list Model :=
  [ {| model_name := "gemini-2.0-flash";
       supported_generation_methods := ["generateContent"] |};
    {| model_name := "gemini-2.5-pro";
       supported_generation_methods := ["generateContent"; "countTokens"] |} ].

(** Two sessions, the second one processed. *)
Definition store_two : @store mock :=
  {| sessions :=
       [ pending;
         {| session_id := "s2"; pdf_processed := true; pdf_name := Some "errata.pdf" |} ];
     disk := {[ "faiss_index_s2" := @Saved mock ["The capital of Freedonia is Fredville."] ]} |}.

(** The page after one session was created. *)
Definition page_one : app.SessionState :=
  {| app.session_id := Some "s1";
     app.sessions := ["s1"];
     app.chat_history := {[ "s1" := [] ]};
     app.uploaded_files := {[ "s1" := [] ]} |}.

(** A question for an identifier that was never created. *)
Definition stray : Question :=
  {| question_session_id := "s0"; question := "What is the capital of Freedonia?" |}.

(** The same upload and store over the second test double. *)
Definition notes_probe : @UploadFile probe :=
  @Build_UploadFile probe "notes.pdf"
    [Some "The capital of Freedonia "; None; Some "is Lastonia."].

Definition store_probe : @store probe :=
  {| sessions := [pending]; disk := ∅ |}.

(** Two environments with the same database and key, the second one asking
    for other chunks. *)
Definition environ_plain : gmap string string :=
  {[ "MONGO_URL" := "mongodb://localhost:27017"; "DB_NAME" := "aarvik";
     "GOOGLE_AI_API_KEY" := "key" ]}.

Definition environ_chunks : gmap string string :=
  <["CHUNK_SIZE" := "500"]> (<["CHUNK_OVERLAP" := "50"]> environ_plain).

(** The disk is full when [save_local] writes the index. *)
Definition save_down : faults :=
  λ c, match c with
       | SaveLocal => Some (OtherError "No space left on device")
       | _ => None
       end.

(** [shutil.rmtree] is refused by the file system. *)
Definition rmtree_denied : faults :=
  λ c, match c with Rmtree => Some (OtherError "PermissionError") | _ => None end.

(** The database is unreachable when [process_pdf] updates the document. *)
Definition update_down : faults :=
  λ c, match c with
       | UpdateOne => Some (OtherError "ServerSelectionTimeoutError")
       | _ => None
       end.

(** * Properties *)

(** ** Strings *)

Lemma append_cons (c : ascii) (s1 s2 : string) :
  String c s1 +:+ s2 = String c (s1 +:+ s2).
Proof. reflexivity. Qed.

Lemma append_empty_l (s : string) : "" +:+ s = s.
Proof. reflexivity. Qed.

Lemma append_assoc (s1 s2 s3 : string) :
  (s1 +:+ s2) +:+ s3 = s1 +:+ s2 +:+ s3.
Proof.
  induction s1 as [|c s1 IH]; [done|].
  rewrite !append_cons. by f_equal.
Qed.

Lemma append_empty_r (s : string) : s +:+ "" = s.
Proof.
  induction s as [|c s IH]; [done|].
  rewrite append_cons. by f_equal.
Qed.

Lemma or_empty_default (x : option string) : or_empty x = default "" x.
Proof. by destruct x as [[|c s]|]. Qed.

Lemma index_path_inj (id1 id2 : string) :
  index_path id1 = index_path id2 → id1 = id2.
Proof. unfold index_path. apply String.app_inj. Qed.

(** ** The monad on a store *)

Section run.
Context `{Libraries}.

Lemma io_no_fault {A} φ c (m : M A) σ : φ c = None → io φ c m σ = m σ.
Proof. intros Hc. unfold io. by rewrite Hc. Qed.

(** The page loop leaves the store alone, whatever the pages yield. *)
Lemma extract_pages_store pages text σ :
  (extract_pages pages text σ).2 = σ.
Proof.
  revert text. induction pages as [|p pages IH]; intros text; [done|].
  simpl. unfold mbind, M_bind, bind, lift.
  destruct (extract_text p) as [x|e]; [apply IH | done].
Qed.

(** On pages that all extract, the loop appends their texts in order. *)
Lemma extract_pages_run pages extracted text σ :
  extracts pages extracted →
  extract_pages pages text σ = (Ok (text +:+ page_texts extracted), σ).
Proof.
  intros Hex. revert text.
  induction Hex as [|p x pages extracted Hp _ IH]; intros text.
  - simpl. unfold page_texts. simpl. by rewrite append_empty_r.
  - simpl. unfold mbind, M_bind, bind, lift. rewrite Hp.
    rewrite IH, or_empty_default. unfold page_texts. simpl.
    by rewrite append_assoc.
Qed.

End run.

(** ** Lookup in the collection *)

Lemma find_doc_None (id : string) (docs : list session) :
  find_doc id docs = None ↔ id ∉ session_id <$> docs.
Proof.
  unfold find_doc. induction docs as [|d docs IH]; simpl.
  - split; [intros _; apply not_elem_of_nil | done].
  - rewrite not_elem_of_cons. destruct (String.eqb_spec (session_id d) id) as [Heq|Hne].
    + split; [done | intros [Hid _]; by destruct Hid].
    + rewrite IH. split; [intros Hid; split; [congruence | done] | by intros [_ Hid]].
Qed.

(** ** Error handling of the upload *)

Section upload.
Context `{Libraries}.
Implicit Types (φ : faults) (σ : store) (file : UploadFile).

(** C10. An upload whose file name does not end in ".pdf" is answered with
    400 "File must be a PDF" whatever the store holds: the session is not
    looked up (a failing [find_one] is not reached, an unknown session is not
    reported), and the store is unchanged. *)
Theorem upload_pdf_extension_first φ σ session_id file :
  endswith (filename file) ".pdf" = false →
  upload_pdf φ session_id file σ
  = (Raise (HTTPException 400 "File must be a PDF"), σ).
Proof. intros Hext. unfold upload_pdf. by rewrite Hext. Qed.

(** What [process_pdf] does on a PDF without text: the 400 raised at line 80
    is caught by the handler's own [except Exception] and replaced by a 500. *)
Lemma process_pdf_blank φ σ session_id file pages extracted :
  PdfReader (stream file) = Ok pages →
  extracts pages extracted →
  strip (page_texts extracted) = "" →
  process_pdf φ file session_id σ
  = (Raise (HTTPException 500
       ("Error processing PDF: "
        +:+ str (HTTPException 400 "PDF contains no extractable text"))), σ).
Proof.
  intros Hread Hex Hblank. unfold process_pdf, try_except.
  unfold mbind at 1, M_bind, bind, lift. rewrite Hread.
  unfold mbind, M_bind, bind.
  rewrite (extract_pages_run _ _ _ _ Hex), append_empty_l.
  by rewrite Hblank.
Qed.

(** C1. On a known session, a ".pdf" upload whose pages yield only
    whitespace (or nothing) is answered with status 500, the detail being
    the text of the 400 that [process_pdf] raised and caught itself; the
    status is not 400. *)
Theorem upload_pdf_blank_is_500 φ σ session_id file d pages extracted :
  endswith (filename file) ".pdf" = true →
  φ FindOne = None →
  find_doc session_id (sessions σ) = Some d →
  PdfReader (stream file) = Ok pages →
  extracts pages extracted →
  strip (page_texts extracted) = "" →
  let r := (upload_pdf φ session_id file σ).1 in
  r = Raise (HTTPException 500
        ("Error processing PDF: "
         +:+ str (HTTPException 400 "PDF contains no extractable text")))
  ∧ http_status r = 500 ∧ http_status r ≠ 400.
Proof.
  intros Hext Hφ Hfind Hread Hex Hblank.
  assert (upload_pdf φ session_id file σ
          = (Raise (HTTPException 500
               ("Error processing PDF: "
                +:+ str (HTTPException 400 "PDF contains no extractable text"))),
             σ)) as Hrun.
  { unfold upload_pdf. rewrite Hext. simpl.
    unfold mbind at 1, M_bind, bind, find_one. rewrite io_no_fault by done.
    rewrite Hfind. unfold mbind, M_bind, bind.
    by rewrite (process_pdf_blank _ _ _ _ _ _ Hread Hex Hblank). }
  simpl. rewrite Hrun. simpl. repeat split; lia.
Qed.

(** C6. An upload whose pages yield no text leaves the store as it was,
    session documents (so [pdf_processed] and [pdf_name]) and index
    directories alike, and it is answered with an error: whatever the file
    name, the session and the storage faults. *)
Theorem upload_pdf_blank_atomic φ σ session_id file pages extracted :
  PdfReader (stream file) = Ok pages →
  extracts pages extracted →
  strip (page_texts extracted) = "" →
  let '(r, σ') := upload_pdf φ session_id file σ in
  (∃ e, r = Raise e) ∧ sessions σ' = sessions σ ∧ disk σ' = disk σ.
Proof.
  intros Hread Hex Hblank. unfold upload_pdf.
  destruct (endswith (filename file) ".pdf"); simpl; [|by eauto].
  unfold mbind at 1, M_bind, bind, find_one, io.
  destruct (φ FindOne) as [e|]; [by eauto|].
  destruct (find_doc session_id (sessions σ)) as [d|]; [|by unfold raise; eauto].
  unfold mbind, M_bind, bind.
  rewrite (process_pdf_blank _ _ _ _ _ _ Hread Hex Hblank). by eauto.
Qed.

End upload.

(** ** What ingestion indexes *)

Section ingestion.
Context `{Libraries}.
Implicit Types (φ : faults) (σ : store) (file : UploadFile).

Lemma strip_truthy (s : string) : strip s ≠ "" → negb (truthy (strip s)) = false.
Proof. by destruct (strip s). Qed.

(** C8. When the pages of the upload yield [extracted] (a text or [None]
    each) and their concatenation in page order, [None] counting as the empty
    string, is not blank, [process_pdf] goes on with exactly that
    concatenation as the argument of the splitter: it behaves as the rest of
    its body run on [split_text 1000 200 (page_texts extracted)]. *)
Theorem process_pdf_splits_page_texts φ σ session_id file pages extracted :
  PdfReader (stream file) = Ok pages →
  extracts pages extracted →
  strip (page_texts extracted) ≠ "" →
  process_pdf φ file session_id σ
  = try_except
      (vector_store ← lift (from_texts (split_text 1000 200 (page_texts extracted)));
       save_local φ vector_store (index_path session_id);;
       update_one φ session_id (filename file);;
       mret true)
      is_Exception
      (λ e, raise (HTTPException 500 ("Error processing PDF: " +:+ str e)))
      σ.
Proof.
  intros Hread Hex Htext. unfold process_pdf, try_except.
  unfold mbind at 1, M_bind at 1, bind at 1, lift at 1. rewrite Hread.
  unfold mbind at 1, M_bind at 1, bind at 1.
  rewrite (extract_pages_run _ _ _ _ Hex), append_empty_l.
  by rewrite (strip_truthy _ Htext).
Qed.

(** C9, as the code has it. The splitter of ingestion is constructed with
    chunk size 1000 and chunk overlap 200, the literals of line 82, for every
    request and store: when the pages extract to a text that is not blank, FAISS builds an
    index from [split_text 1000 200] of that text and the two writes go
    through, [process_pdf] returns [True], the index directory of the session
    holds that index, and the session document is marked processed with the
    file name. *)
Theorem process_pdf_chunks_1000_200 φ σ session_id file pages extracted vector_store :
  PdfReader (stream file) = Ok pages →
  extracts pages extracted →
  strip (page_texts extracted) ≠ "" →
  from_texts (split_text 1000 200 (page_texts extracted)) = Ok vector_store →
  φ SaveLocal = None →
  φ UpdateOne = None →
  process_pdf φ file session_id σ
  = (Ok true,
     {| sessions := set_processed session_id (filename file) (sessions σ);
        disk := <[index_path session_id := Saved vector_store]> (disk σ) |}).
Proof.
  intros Hread Hex Htext Hindex Hsave Hupdate. unfold process_pdf, try_except.
  unfold mbind at 1, M_bind at 1, bind at 1, lift at 1. rewrite Hread.
  unfold mbind at 1, M_bind at 1, bind at 1.
  rewrite (extract_pages_run _ _ _ _ Hex), append_empty_l.
  rewrite (strip_truthy _ Htext).
  unfold mbind, M_bind, bind, lift, save_local, update_one.
  rewrite Hindex, Hsave. rewrite io_no_fault by done. done.
Qed.

End ingestion.

(** ** Error handling of the query *)

Section query.
Context `{Libraries}.
Implicit Types (φ : faults) (σ : store) (q : Question).

(** C4. A question for an identifier no session document carries is answered
    with "Session not found"; a question for a session whose document is not
    flagged processed is answered with "No PDF processed for this session".
    Both leave the store unchanged, and the two errors differ (in their
    detail; both have status 404). *)
Theorem ask_question_unknown_vs_unprocessed φ σ q :
  φ FindOne = None →
  (question_session_id q ∉ ids σ →
     ask_question φ q σ = (Raise (HTTPException 404 "Session not found"), σ))
  ∧ (∀ d, find_doc (question_session_id q) (sessions σ) = Some d →
       pdf_processed d = false →
       ask_question φ q σ
       = (Raise (HTTPException 404 "No PDF processed for this session"), σ))
  ∧ HTTPException 404 "Session not found"
    ≠ HTTPException 404 "No PDF processed for this session".
Proof.
  intros Hφ. split; [|split; [|done]].
  - intros Hid. apply find_doc_None in Hid.
    unfold ask_question, mbind, M_bind, bind, find_one.
    rewrite io_no_fault by done. by rewrite Hid.
  - intros d Hfind Hflag.
    unfold ask_question, mbind, M_bind, bind, find_one.
    rewrite io_no_fault by done. by rewrite Hfind, Hflag.
Qed.

(** C2. A question for a session that is flagged processed while its index
    directory does not exist is answered with status 500: the 404 "FAISS
    index not found" raised at line 145 is caught by the [except Exception]
    of the same [try] and replaced. The status is not 404. *)
Theorem ask_question_missing_index_is_500 φ σ q d :
  φ FindOne = None →
  find_doc (question_session_id q) (sessions σ) = Some d →
  pdf_processed d = true →
  disk σ !! index_path (question_session_id q) = None →
  let r := (ask_question φ q σ).1 in
  r = Raise (HTTPException 500
        ("Error answering question: "
         +:+ str (HTTPException 404 "FAISS index not found")))
  ∧ http_status r = 500 ∧ http_status r ≠ 404.
Proof.
  intros Hφ Hfind Hflag Hdisk.
  assert (ask_question φ q σ
          = (Raise (HTTPException 500
               ("Error answering question: "
                +:+ str (HTTPException 404 "FAISS index not found"))), σ)) as Hrun.
  { unfold ask_question. unfold mbind at 1, M_bind at 1, bind at 1, find_one.
    rewrite io_no_fault by done. rewrite Hfind, Hflag. simpl.
    unfold try_except, mbind, M_bind, bind, path_exists. rewrite Hdisk.
    rewrite bool_decide_eq_false_2 by (by apply is_Some_None). done. }
  simpl. rewrite Hrun. simpl. repeat split; lia.
Qed.

End query.

(** ** Deletion *)

Lemma remove_first_absent (id : string) (docs : list session) :
  id ∉ session_id <$> docs → remove_first id docs = (0, docs).
Proof.
  induction docs as [|d docs IH]; simpl; [done|].
  rewrite not_elem_of_cons. intros [Hne Hid].
  destruct (String.eqb_spec (session_id d) id) as [Heq|_]; [congruence|].
  by rewrite IH.
Qed.

Lemma remove_first_present (id : string) (docs : list session) :
  id ∈ session_id <$> docs → (remove_first id docs).1 = 1.
Proof.
  induction docs as [|d docs IH]; simpl.
  - intros Hid. by apply elem_of_nil in Hid.
  - rewrite elem_of_cons. intros Hid.
    destruct (String.eqb_spec (session_id d) id) as [Heq|Hne]; [done|].
    destruct Hid as [Hid|Hid]; [congruence|].
    specialize (IH Hid). by destruct (remove_first id docs).
Qed.

Lemma remove_first_elem_of (id : string) (docs : list session) (d : session) :
  d ∈ (remove_first id docs).2 → d ∈ docs.
Proof.
  induction docs as [|d0 docs IH]; simpl; [done|].
  destruct (String.eqb (session_id d0) id); simpl.
  - intros Hd. by apply elem_of_cons; right.
  - destruct (remove_first id docs) as [n docs'] eqn:Hrm. simpl in *.
    rewrite !elem_of_cons. intros [Hd|Hd]; [by left | right; by apply IH].
Qed.

(** With unique identifiers, no document of the session is left. *)
Lemma remove_first_unique (id : string) (docs : list session) :
  NoDup (session_id <$> docs) → id ∉ session_id <$> (remove_first id docs).2.
Proof.
  induction docs as [|d docs IH]; simpl; [intros _; apply not_elem_of_nil|].
  rewrite NoDup_cons. intros [Hd Hdocs].
  destruct (String.eqb_spec (session_id d) id) as [Heq|Hne]; simpl.
  - by rewrite <-Heq.
  - specialize (IH Hdocs).
    destruct (remove_first id docs) as [n docs'] eqn:Hrm. simpl in *.
    rewrite not_elem_of_cons. by split.
Qed.

Lemma remove_first_NoDup (id : string) (docs : list session) :
  NoDup (session_id <$> docs) → NoDup (session_id <$> (remove_first id docs).2).
Proof.
  induction docs as [|d docs IH]; simpl; [done|].
  rewrite NoDup_cons. intros [Hd Hdocs].
  destruct (String.eqb (session_id d) id); simpl; [done|].
  specialize (IH Hdocs).
  pose proof (remove_first_elem_of id docs) as Hsub.
  destruct (remove_first id docs) as [n docs'] eqn:Hrm. simpl in *.
  apply NoDup_cons. split; [|done].
  intros Hin. apply Hd. apply list_elem_of_fmap in Hin as (d' & -> & Hd').
  apply list_elem_of_fmap. exists d'. split; [done | by apply Hsub].
Qed.

Section deletion.
Context `{Libraries}.
Implicit Types (φ : faults) (σ : store).

(** [delete_session] on a session that has a document: the first such
    document goes, then the outcome follows what [rmtree] does. *)
Lemma delete_session_run φ σ id :
  φ DeleteOne = None →
  id ∈ ids σ →
  let σ1 := set_sessions (remove_first id (sessions σ)).2 σ in
  delete_session φ id σ
  = match φ Rmtree with
    | Some e => (if is_FileNotFoundError e then Ok (deleted id) else Raise e, σ1)
    | None =>
        match disk σ !! index_path id with
        | Some _ => (Ok (deleted id), set_disk (delete (index_path id) (disk σ)) σ1)
        | None => (Ok (deleted id), σ1)
        end
    end.
Proof.
  intros Hφ Hid. apply remove_first_present in Hid.
  unfold delete_session. unfold mbind at 1, M_bind at 1, bind at 1, delete_one.
  rewrite io_no_fault by done.
  destruct (remove_first id (sessions σ)) as [n docs] eqn:Hrm.
  simpl in Hid. subst n. simpl.
  unfold mbind, M_bind, bind, try_except, rmtree, io.
  destruct (φ Rmtree) as [e|]; simpl.
  - by destruct e.
  - by destruct (disk σ !! index_path id).
Qed.

(** [delete_session] on an identifier without a document. *)
Lemma delete_session_unknown φ σ id :
  φ DeleteOne = None →
  id ∉ ids σ →
  delete_session φ id σ = (Raise (HTTPException 404 "Session not found"), σ).
Proof.
  intros Hφ Hid. apply remove_first_absent in Hid.
  unfold delete_session, mbind, M_bind, bind, delete_one.
  rewrite io_no_fault by done. rewrite Hid. simpl. by destruct σ.
Qed.

(** C5, as the code has it. Once the session document is removed, a missing
    index directory is tolerated and the call succeeds, as it does when the
    directory is removed; an error of [rmtree] other than [FileNotFoundError]
    is not caught: it leaves the handler, the document staying removed. *)
Theorem delete_session_rmtree_errors φ σ id :
  φ DeleteOne = None →
  id ∈ ids σ →
  let '(r, σ') := delete_session φ id σ in
  sessions σ' = (remove_first id (sessions σ)).2
  ∧ match φ Rmtree with
    | None => r = Ok (deleted id)
    | Some e => if is_FileNotFoundError e then r = Ok (deleted id) else r = Raise e
    end.
Proof.
  intros Hφ Hid. rewrite (delete_session_run _ _ _ Hφ Hid).
  destruct (φ Rmtree) as [e|].
  - split; [done | by destruct (is_FileNotFoundError e)].
  - by destruct (disk σ !! index_path id).
Qed.

(** C7. With unique session identifiers and storage calls that go through,
    the first deletion of an existing session succeeds and removes its
    document; a second deletion of the same identifier is answered with 404
    "Session not found". *)
Theorem delete_session_twice φ1 φ2 σ id :
  NoDup (ids σ) →
  id ∈ ids σ →
  φ1 DeleteOne = None →
  φ1 Rmtree = None →
  φ2 DeleteOne = None →
  let '(r1, σ1) := delete_session φ1 id σ in
  let '(r2, σ2) := delete_session φ2 id σ1 in
  r1 = Ok (deleted id)
  ∧ (id ∉ ids σ1)
  ∧ r2 = Raise (HTTPException 404 "Session not found")
  ∧ http_status r2 = 404.
Proof.
  intros Huniq Hid Hdel1 Hrm1 Hdel2.
  rewrite (delete_session_run _ _ _ Hdel1 Hid), Hrm1.
  pose proof (remove_first_unique id (sessions σ) Huniq) as Hgone.
  destruct (disk σ !! index_path id);
    (rewrite delete_session_unknown; [done | done | exact Hgone]).
Qed.

End deletion.

(** ** The store invariant under each request *)

Lemma set_processed_ids (id name x : string) (docs : list session) :
  x ∈ session_id <$> set_processed id name docs →
  x ∈ session_id <$> docs ∨ x = id.
Proof.
  induction docs as [|d docs IH]; simpl.
  - rewrite list_elem_of_singleton. by right.
  - destruct (String.eqb (session_id d) id); simpl; [by left|].
    rewrite !elem_of_cons. intros [Hx|Hx]; [by left; left|].
    destruct (IH Hx) as [Hin|Heq]; [by left; right | by right].
Qed.

Lemma set_processed_NoDup (id name : string) (docs : list session) :
  NoDup (session_id <$> docs) →
  NoDup (session_id <$> set_processed id name docs).
Proof.
  induction docs as [|d docs IH]; simpl.
  - intros _. apply NoDup_singleton.
  - rewrite NoDup_cons. intros [Hd Hdocs].
    destruct (String.eqb_spec (session_id d) id) as [Heq|Hne]; simpl.
    + by apply NoDup_cons.
    + apply NoDup_cons. split; [|by apply IH].
      intros Hin. by apply set_processed_ids in Hin as [Hin|Heq].
Qed.

(** With unique identifiers, [update_one] yields the documents of the other
    sessions as they were and one processed document for the session. *)
Lemma set_processed_elem_of (id name : string) (docs : list session) (d : session) :
  NoDup (session_id <$> docs) →
  d ∈ set_processed id name docs →
  (session_id d = id ∧ pdf_processed d = true)
  ∨ (d ∈ docs ∧ session_id d ≠ id).
Proof.
  induction docs as [|d0 docs IH]; simpl.
  - intros _. rewrite list_elem_of_singleton. intros ->. by left.
  - rewrite NoDup_cons. intros [Hd0 Hdocs].
    destruct (String.eqb_spec (session_id d0) id) as [Heq|Hne].
    + rewrite elem_of_cons. intros [->|Hd]; [by left|]. right. split.
      * by apply elem_of_cons; right.
      * intros Hid. apply Hd0. rewrite Heq, <-Hid.
        apply list_elem_of_fmap. by exists d.
    + rewrite elem_of_cons. intros [->|Hd].
      * right. split; [by apply elem_of_cons; left | done].
      * destruct (IH Hdocs Hd) as [Hnew|[Hin Hid]]; [by left|].
        right. split; [by apply elem_of_cons; right | done].
Qed.

Section preservation.
Context `{Libraries}.
Implicit Types (φ : faults) (σ : store) (file : UploadFile).

(** The stores a request can leave behind. *)

Lemma create_session_store φ σ uuid4 :
  let '(r, σ') := create_session φ uuid4 σ in
  σ' = σ
  ∨ σ' = set_sessions
           (sessions σ ++ [ {| session_id := uuid4; pdf_processed := false;
                               pdf_name := None |} ]) σ.
Proof.
  unfold create_session, mbind, M_bind, bind, insert_one, io.
  destruct (φ InsertOne); simpl; [by left | by right].
Qed.

(** An ingestion whose writes go through either fails and leaves the store
    as it was, or succeeds with the index saved and the document updated. *)
Lemma process_pdf_store φ σ session_id file :
  φ SaveLocal = None →
  φ UpdateOne = None →
  let '(r, σ') := process_pdf φ file session_id σ in
  (∃ e, r = Raise e ∧ σ' = σ)
  ∨ (r = Ok true
     ∧ ∃ vector_store,
         σ' = {| sessions := set_processed session_id (filename file) (sessions σ);
                 disk := <[index_path session_id := Saved vector_store]> (disk σ) |}).
Proof.
  intros Hsave Hupdate.
  unfold process_pdf, try_except, mbind, M_bind, bind, lift.
  destruct (PdfReader (stream file)) as [pages|e]; [|by left; eauto].
  pose proof (extract_pages_store pages "" σ) as Hloop.
  destruct (extract_pages pages "" σ) as [[text|e] σ0]; simpl in Hloop; subst σ0;
    [|by left; eauto].
  destruct (negb (truthy (strip text))); [by left; eauto|].
  destruct (from_texts (split_text 1000 200 text)) as [vector_store|e];
    [|by left; eauto].
  unfold save_local, update_one. rewrite Hsave. rewrite io_no_fault by done.
  right. split; [done | by exists vector_store].
Qed.

Lemma upload_pdf_store φ σ session_id file :
  φ SaveLocal = None →
  φ UpdateOne = None →
  let '(r, σ') := upload_pdf φ session_id file σ in
  σ' = σ
  ∨ ∃ vector_store,
      σ' = {| sessions := set_processed session_id (filename file) (sessions σ);
              disk := <[index_path session_id := Saved vector_store]> (disk σ) |}.
Proof.
  intros Hsave Hupdate. unfold upload_pdf.
  destruct (endswith (filename file) ".pdf"); simpl; [|by left].
  unfold mbind, M_bind, bind, find_one, io.
  destruct (φ FindOne); [by left|].
  destruct (find_doc session_id (sessions σ)); [|by left].
  pose proof (process_pdf_store φ σ session_id file Hsave Hupdate) as Hstore.
  destruct (process_pdf φ file session_id σ) as [[b|e] σ0].
  - destruct Hstore as [(e & [=] & _)|[_ Hnew]]. by right.
  - destruct Hstore as [(e' & _ & ->)|[[=] _]]. by left.
Qed.

Lemma ask_question_store φ σ q : (ask_question φ q σ).2 = σ.
Proof.
  unfold ask_question, mbind, M_bind, bind, find_one, io.
  destruct (φ FindOne); [done|].
  destruct (find_doc (question_session_id q) (sessions σ)) as [d|]; [|done].
  destruct (negb (pdf_processed d)); [done|].
  unfold try_except, path_exists, load_local, io, lift.
  destruct (bool_decide _); simpl; [|done].
  destruct (φ LoadLocal); [done|].
  destruct (disk σ !! index_path (question_session_id q)) as [[vector_store|]|];
    [|done..].
  by destruct (qa_invoke vector_store (question q)).
Qed.

Lemma delete_session_store φ σ id :
  let '(r, σ') := delete_session φ id σ in
  σ' = σ
  ∨ (sessions σ' = (remove_first id (sessions σ)).2
     ∧ (disk σ' = disk σ ∨ disk σ' = delete (index_path id) (disk σ))).
Proof.
  unfold delete_session, mbind, M_bind, bind, delete_one, io.
  destruct (φ DeleteOne); [by left|].
  destruct (remove_first id (sessions σ)) as [n docs] eqn:Hrm. simpl.
  destruct (n =? 0); simpl; [right; split; [done | by left]|].
  unfold try_except, rmtree, io.
  destruct (φ Rmtree) as [e|]; simpl.
  - destruct (is_FileNotFoundError e); simpl; right; split; auto.
  - destruct (disk σ !! index_path id); simpl; right; split; auto.
Qed.

End preservation.

Section invariant.
Context `{Libraries}.
Implicit Types (φ : faults) (σ : store).

Lemma invariant_insert_one σ uuid4 :
  invariant σ →
  fresh uuid4 σ →
  invariant (set_sessions
               (sessions σ ++ [ {| session_id := uuid4; pdf_processed := false;
                                   pdf_name := None |} ]) σ).
Proof.
  intros [Huniq Hcons] [Hid Hdir]. split.
  - unfold ids. simpl. rewrite fmap_app. simpl.
    apply NoDup_app. split; [done|]. split; [|apply NoDup_singleton].
    intros x Hx. rewrite list_elem_of_singleton. by intros ->.
  - intros d. simpl. rewrite elem_of_app, list_elem_of_singleton.
    intros [Hd| ->]; [by apply Hcons|].
    unfold index_exists. simpl. rewrite Hdir. split; [|done].
    intros Hsome. by apply is_Some_None in Hsome.
Qed.

Lemma invariant_processed σ id name (vector_store : index) :
  invariant σ →
  invariant {| sessions := set_processed id name (sessions σ);
               disk := <[index_path id := Saved vector_store]> (disk σ) |}.
Proof.
  intros [Huniq Hcons]. split.
  - by apply set_processed_NoDup.
  - intros d Hd. unfold index_exists. simpl in *.
    apply set_processed_elem_of in Hd as [[Hid Hflag]|[Hd Hid]]; [| |done].
    + rewrite Hid, lookup_insert_eq. by split.
    + rewrite lookup_insert_ne; [by apply Hcons|].
      intros Hpath. by apply index_path_inj in Hpath.
Qed.

Lemma invariant_removed σ σ' id :
  invariant σ →
  sessions σ' = (remove_first id (sessions σ)).2 →
  disk σ' = disk σ ∨ disk σ' = delete (index_path id) (disk σ) →
  invariant σ'.
Proof.
  intros [Huniq Hcons] Hdocs Hdisk. split.
  - unfold ids. rewrite Hdocs. by apply remove_first_NoDup.
  - intros d Hd. rewrite Hdocs in Hd.
    assert (session_id d ≠ id) as Hid.
    { intros Hid. apply (remove_first_unique id (sessions σ) Huniq).
      apply list_elem_of_fmap. by exists d. }
    apply remove_first_elem_of in Hd. unfold index_exists.
    destruct Hdisk as [-> | ->]; [by apply Hcons|].
    rewrite lookup_delete_ne; [by apply Hcons|].
    intros Hpath. by apply index_path_inj in Hpath.
Qed.

(** C3, as the code has it. In a store with unique session identifiers where
    every document is flagged processed exactly when its index directory
    exists, every request (create with a fresh identifier, upload, question,
    delete) leaves such a store, whatever it answers and whatever storage call
    fails, provided the two writes of an ingestion are not cut short. *)
Theorem handle_preserves_invariant φ r σ :
  invariant σ →
  draws_fresh r σ →
  writes_go_through φ r →
  invariant (handle φ r σ).2.
Proof.
  intros Hinv Hfresh Hwrites. destruct r as [uuid4|id file|q|id]; simpl in *.
  - pose proof (create_session_store φ σ uuid4) as Hstore.
    destruct (create_session φ uuid4 σ) as [r σ']. simpl.
    destruct Hstore as [-> | ->]; [done | by apply invariant_insert_one].
  - destruct Hwrites as [Hsave Hupdate].
    pose proof (upload_pdf_store φ σ id file Hsave Hupdate) as Hstore.
    destruct (upload_pdf φ id file σ) as [r σ']. simpl.
    destruct Hstore as [-> | [vector_store ->]]; [done | by apply invariant_processed].
  - by rewrite ask_question_store.
  - pose proof (delete_session_store φ σ id) as Hstore.
    destruct (delete_session φ id σ) as [r σ']. simpl.
    destruct Hstore as [-> | [Hdocs Hdisk]]; [done | by eapply invariant_removed].
Qed.

End invariant.

(** ** The statements on sample stores *)

Lemma store_pending_invariant : invariant store_pending.
Proof.
  split.
  - apply NoDup_singleton.
  - intros d Hd. apply list_elem_of_singleton in Hd as ->.
    unfold index_exists. simpl. rewrite lookup_empty. split; [|done].
    intros Hsome. by apply is_Some_None in Hsome.
Qed.

Lemma scan_pdf_extracts : @extracts mock [Some "  "; None] [Some "  "; None].
Proof. repeat constructor. Qed.

Lemma notes_pdf_extracts :
  @extracts mock
    [Some "The capital of Freedonia "; None; Some "is Lastonia."]
    [Some "The capital of Freedonia "; None; Some "is Lastonia."].
Proof. repeat constructor. Qed.

Lemma upload_pdf_blank_is_500_witness :
  let r := (@upload_pdf mock no_faults "s1" scan_pdf store_pending).1 in
  r = Raise (HTTPException 500
        "Error processing PDF: 400: PDF contains no extractable text")
  ∧ http_status r = 500 ∧ http_status r ≠ 400.
Proof.
  apply (upload_pdf_blank_is_500 (H := mock) no_faults store_pending "s1"
           scan_pdf pending [Some "  "; None] [Some "  "; None]).
  - reflexivity.
  - reflexivity.
  - reflexivity.
  - reflexivity.
  - exact scan_pdf_extracts.
  - reflexivity.
Defined.

Lemma ask_question_missing_index_is_500_witness :
  let r := (@ask_question mock no_faults capital store_lost).1 in
  r = Raise (HTTPException 500
        "Error answering question: 404: FAISS index not found")
  ∧ http_status r = 500 ∧ http_status r ≠ 404.
Proof.
  apply (ask_question_missing_index_is_500 (H := mock) no_faults store_lost
           capital processed).
  - reflexivity.
  - reflexivity.
  - reflexivity.
  - reflexivity.
Defined.

(** C3 fails when the database update of an ingestion raises after the index
    was saved: on the store a session creation leaves, the upload is answered
    with 500 and the index directory of the session exists while its document
    is still flagged unprocessed. *)
Lemma upload_update_fault_inconsistent :
  (@create_session mock no_faults "s1" {| sessions := []; disk := ∅ |}).2
  = store_pending
  ∧ invariant store_pending
  ∧ let '(r, σ') := @upload_pdf mock update_down "s1" notes_pdf store_pending in
    r = Raise (HTTPException 500 "Error processing PDF: ServerSelectionTimeoutError")
    ∧ sessions σ' = [pending]
    ∧ is_Some (disk σ' !! "faiss_index_s1")
    ∧ ¬ invariant σ'.
Proof.
  split; [reflexivity|].
  split; [exact store_pending_invariant|].
  vm_compute upload_pdf.
  split; [reflexivity|]. split; [reflexivity|]. split.
  - vm_compute. eauto.
  - intros [_ Hcons].
    destruct (Hcons pending) as [Hflag _]; [by apply list_elem_of_singleton|].
    assert (pdf_processed pending = true) as Hprocessed; [|done].
    apply Hflag. vm_compute. eauto.
Qed.

Lemma handle_preserves_invariant_witness :
  invariant (@handle mock no_faults (Upload "s1" notes_pdf) store_pending).2
  ∧ invariant (@handle mock no_faults (Create "s2") store_pending).2.
Proof.
  split.
  - apply (handle_preserves_invariant (H := mock) no_faults
             (Upload "s1" notes_pdf) store_pending).
    + exact store_pending_invariant.
    + simpl. exact I.
    + simpl. split; reflexivity.
  - apply (handle_preserves_invariant (H := mock) no_faults
             (Create "s2") store_pending).
    + exact store_pending_invariant.
    + simpl. split; [|reflexivity].
      apply not_elem_of_cons. split; [discriminate | apply not_elem_of_nil].
    + simpl. exact I.
Defined.

Lemma ask_question_unknown_vs_unprocessed_witness :
  @ask_question mock no_faults stray store_pending
  = (Raise (HTTPException 404 "Session not found"), store_pending)
  ∧ @ask_question mock no_faults capital store_pending
    = (Raise (HTTPException 404 "No PDF processed for this session"), store_pending).
Proof.
  split.
  - apply (proj1 (ask_question_unknown_vs_unprocessed (H := mock)
                    no_faults store_pending stray eq_refl)).
    apply not_elem_of_cons. split; [discriminate | apply not_elem_of_nil].
  - apply (proj1 (proj2 (ask_question_unknown_vs_unprocessed (H := mock)
                           no_faults store_pending capital eq_refl)) pending).
    + reflexivity.
    + reflexivity.
Defined.

(** C5 fails when [rmtree] raises anything but [FileNotFoundError]: the
    session document is removed, the index directory stays, and the
    [PermissionError] leaves the handler, answered with status 500. *)
Lemma delete_session_rmtree_denied :
  let '(r, σ') := @delete_session mock rmtree_denied "s1" store_processed in
  sessions σ' = []
  ∧ r = Raise (OtherError "PermissionError")
  ∧ http_status r = 500
  ∧ is_Some (disk σ' !! "faiss_index_s1").
Proof.
  vm_compute delete_session.
  split; [reflexivity|]. split; [reflexivity|]. split; [reflexivity|].
  vm_compute. eauto.
Qed.

Lemma delete_session_rmtree_errors_witness :
  let '(r, σ') := @delete_session mock no_faults "s1" store_pending in
  sessions σ' = (remove_first "s1" (sessions store_pending)).2
  ∧ r = Ok (deleted "s1").
Proof.
  apply (delete_session_rmtree_errors (H := mock) no_faults store_pending "s1").
  - reflexivity.
  - apply list_elem_of_singleton. reflexivity.
Defined.

Lemma upload_pdf_blank_atomic_witness :
  let '(r, σ') := @upload_pdf mock no_faults "s1" scan_pdf store_pending in
  (∃ e, r = Raise e)
  ∧ sessions σ' = sessions store_pending ∧ disk σ' = disk store_pending.
Proof.
  apply (upload_pdf_blank_atomic (H := mock) no_faults store_pending "s1"
           scan_pdf [Some "  "; None] [Some "  "; None]).
  - reflexivity.
  - exact scan_pdf_extracts.
  - reflexivity.
Defined.

Lemma delete_session_twice_witness :
  let '(r1, σ1) := @delete_session mock no_faults "s1" store_processed in
  let '(r2, σ2) := @delete_session mock no_faults "s1" σ1 in
  r1 = Ok (deleted "s1")
  ∧ ("s1" ∉ ids σ1)
  ∧ r2 = Raise (HTTPException 404 "Session not found")
  ∧ http_status r2 = 404.
Proof.
  apply (delete_session_twice (H := mock) no_faults no_faults store_processed "s1").
  - apply NoDup_singleton.
  - apply list_elem_of_singleton. reflexivity.
  - reflexivity.
  - reflexivity.
  - reflexivity.
Defined.

Lemma process_pdf_splits_page_texts_witness :
  @process_pdf mock no_faults notes_pdf "s1" store_pending
  = @try_except mock _
      (vector_store ← @lift mock _
         (@from_texts mock
            (@split_text mock 1000 200
               (page_texts
                  [Some "The capital of Freedonia "; None; Some "is Lastonia."])));
       @save_local mock no_faults vector_store (index_path "s1");;
       @update_one mock no_faults "s1" "notes.pdf";;
       mret true)
      is_Exception
      (λ e, raise (HTTPException 500 ("Error processing PDF: " +:+ @str mock e)))
      store_pending.
Proof.
  apply (process_pdf_splits_page_texts (H := mock) no_faults store_pending "s1"
           notes_pdf
           [Some "The capital of Freedonia "; None; Some "is Lastonia."]
           [Some "The capital of Freedonia "; None; Some "is Lastonia."]).
  - reflexivity.
  - exact notes_pdf_extracts.
  - vm_compute. discriminate.
Defined.

Lemma process_pdf_chunks_1000_200_witness :
  @process_pdf mock no_faults notes_pdf "s1" store_pending
  = (Ok true,
     {| sessions := [processed];
        disk := <["faiss_index_s1" := @Saved mock ["The capital of Freedonia is Lastonia."]]> ∅ |}).
Proof.
  apply (process_pdf_chunks_1000_200 (H := mock) no_faults store_pending "s1"
           notes_pdf
           [Some "The capital of Freedonia "; None; Some "is Lastonia."]
           [Some "The capital of Freedonia "; None; Some "is Lastonia."]
           ["The capital of Freedonia is Lastonia."]).
  - reflexivity.
  - exact notes_pdf_extracts.
  - vm_compute. discriminate.
  - reflexivity.
  - reflexivity.
  - reflexivity.
Defined.

Lemma upload_pdf_extension_first_witness :
  @upload_pdf mock no_faults "s0" notes_txt store_pending
  = (Raise (HTTPException 400 "File must be a PDF"), store_pending).
Proof.
  apply (upload_pdf_extension_first (H := mock) no_faults store_pending "s0" notes_txt).
  reflexivity.
Defined.

(** * Further properties of the handlers *)

(** ** Documents under [update_one] and [delete_one] *)

Lemma find_doc_app_other (id : string) (docs : list session) (d : session) :
  session_id d ≠ id → find_doc id (docs ++ [d]) = find_doc id docs.
Proof.
  intros Hne. unfold find_doc. induction docs as [|d0 docs IH]; simpl.
  - by destruct (String.eqb_spec (session_id d) id).
  - by destruct (String.eqb (session_id d0) id).
Qed.

Lemma find_doc_app_new (id : string) (docs : list session) (d : session) :
  id ∉ session_id <$> docs → session_id d = id →
  find_doc id (docs ++ [d]) = Some d.
Proof.
  intros Hid Hd. unfold find_doc. induction docs as [|d0 docs IH]; simpl.
  - by destruct (String.eqb_spec (session_id d) id).
  - apply not_elem_of_cons in Hid as [Hne Hid].
    destruct (String.eqb_spec (session_id d0) id); [congruence | by apply IH].
Qed.

Lemma find_doc_set_processed_other (id id' name : string) (docs : list session) :
  id' ≠ id → find_doc id' (set_processed id name docs) = find_doc id' docs.
Proof.
  intros Hne. unfold find_doc. induction docs as [|d docs IH]; simpl.
  - by destruct (String.eqb_spec id id'); [congruence|].
  - destruct (String.eqb_spec (session_id d) id) as [Heq|Hid]; simpl.
    + by destruct (String.eqb_spec (session_id d) id'); [congruence|].
    + by destruct (String.eqb (session_id d) id').
Qed.

Lemma find_doc_set_processed (id name : string) (docs : list session) :
  ∃ d, find_doc id (set_processed id name docs) = Some d
       ∧ session_id d = id ∧ pdf_processed d = true ∧ pdf_name d = Some name.
Proof.
  unfold find_doc. induction docs as [|d docs IH]; simpl.
  - rewrite String.eqb_refl. by eexists.
  - destruct (String.eqb_spec (session_id d) id) as [Heq|Hid]; simpl.
    + rewrite Heq, String.eqb_refl. by eexists.
    + by destruct (String.eqb_spec (session_id d) id).
Qed.

Lemma find_doc_remove_first_other (id id' : string) (docs : list session) :
  id' ≠ id → find_doc id' (remove_first id docs).2 = find_doc id' docs.
Proof.
  intros Hne. unfold find_doc. induction docs as [|d docs IH]; simpl; [done|].
  destruct (String.eqb_spec (session_id d) id) as [Heq|Hid]; simpl.
  - by destruct (String.eqb_spec (session_id d) id'); [congruence|].
  - destruct (remove_first id docs) as [n docs'] eqn:Hrm. simpl in *.
    by destruct (String.eqb (session_id d) id').
Qed.

Lemma set_processed_known_ids (id name : string) (docs : list session) :
  id ∈ session_id <$> docs →
  session_id <$> set_processed id name docs = session_id <$> docs.
Proof.
  induction docs as [|d docs IH]; simpl.
  - intros Hid. by apply elem_of_nil in Hid.
  - rewrite elem_of_cons. intros Hid.
    destruct (String.eqb_spec (session_id d) id) as [Heq|Hne]; simpl; [done|].
    destruct Hid as [Hid|Hid]; [congruence|]. f_equal. by apply IH.
Qed.

Lemma set_processed_twice (id name1 name2 : string) (docs : list session) :
  set_processed id name2 (set_processed id name1 docs) = set_processed id name2 docs.
Proof.
  induction docs as [|d docs IH]; simpl.
  - by rewrite String.eqb_refl.
  - destruct (String.eqb_spec (session_id d) id) as [Heq|Hne]; simpl.
    + by rewrite Heq, String.eqb_refl.
    + destruct (String.eqb_spec (session_id d) id); [done|]. by rewrite IH.
Qed.

Lemma set_processed_app_new (id name : string) (docs : list session) (d : session) :
  id ∉ session_id <$> docs → session_id d = id →
  set_processed id name (docs ++ [d])
  = docs ++ [ {| session_id := id; pdf_processed := true; pdf_name := Some name |} ].
Proof.
  intros Hid Hd. induction docs as [|d0 docs IH]; simpl.
  - destruct (String.eqb_spec (session_id d) id); [by rewrite Hd | done].
  - apply not_elem_of_cons in Hid as [Hne Hid].
    destruct (String.eqb_spec (session_id d0) id); [congruence|].
    by rewrite IH.
Qed.

Lemma remove_first_app_new (id : string) (docs : list session) (d : session) :
  id ∉ session_id <$> docs → session_id d = id →
  remove_first id (docs ++ [d]) = (1, docs).
Proof.
  intros Hid Hd. induction docs as [|d0 docs IH]; simpl.
  - by destruct (String.eqb_spec (session_id d) id).
  - apply not_elem_of_cons in Hid as [Hne Hid].
    destruct (String.eqb_spec (session_id d0) id); [congruence|].
    by rewrite IH.
Qed.

(** ** Runs of the handlers when storage answers *)

Section runs.
Context `{Libraries}.
Implicit Types (φ : faults) (σ : store) (file : UploadFile) (q : Question).

Lemma find_doc_known (id : string) (docs : list session) :
  id ∈ session_id <$> docs ↔ is_Some (find_doc id docs).
Proof.
  destruct (find_doc id docs) as [d|] eqn:Hfind.
  - split; [by eauto|]. intros _.
    destruct (decide (id ∈ session_id <$> docs)) as [Hin|Hout]; [done|].
    apply find_doc_None in Hout. congruence.
  - apply find_doc_None in Hfind. split; [done|]. intros Hsome.
    by apply is_Some_None in Hsome.
Qed.

Lemma create_session_run φ σ uuid4 :
  φ InsertOne = None →
  create_session φ uuid4 σ
  = (Ok (SessionResponse uuid4),
     set_sessions (sessions σ ++ [ {| session_id := uuid4; pdf_processed := false;
                                      pdf_name := None |} ]) σ).
Proof.
  intros Hφ. unfold create_session, mbind, M_bind, bind, insert_one.
  by rewrite io_no_fault.
Qed.

Lemma process_pdf_ingests φ σ id file vector_store :
  φ SaveLocal = None →
  φ UpdateOne = None →
  ingestible file vector_store →
  process_pdf φ file id σ
  = (Ok true,
     {| sessions := set_processed id (filename file) (sessions σ);
        disk := <[index_path id := Saved vector_store]> (disk σ) |}).
Proof.
  intros Hsave Hupdate (pages & extracted & Hread & Hex & Htext & Hindex).
  unfold process_pdf, try_except, mbind, M_bind, bind, lift. rewrite Hread.
  rewrite (extract_pages_run _ _ _ _ Hex), append_empty_l.
  rewrite (strip_truthy _ Htext), Hindex.
  unfold save_local, update_one. rewrite Hsave. by rewrite io_no_fault.
Qed.

Lemma upload_pdf_ingests φ σ id file vector_store :
  endswith (filename file) ".pdf" = true →
  φ FindOne = None →
  φ SaveLocal = None →
  φ UpdateOne = None →
  id ∈ ids σ →
  ingestible file vector_store →
  upload_pdf φ id file σ
  = (Ok (uploaded id),
     {| sessions := set_processed id (filename file) (sessions σ);
        disk := <[index_path id := Saved vector_store]> (disk σ) |}).
Proof.
  intros Hext Hfind Hsave Hupdate Hid Hfile.
  apply find_doc_known in Hid as [d Hd].
  unfold upload_pdf. rewrite Hext. simpl.
  unfold mbind, M_bind, bind, find_one. rewrite io_no_fault by done.
  rewrite Hd. by rewrite (process_pdf_ingests _ _ _ _ _ Hsave Hupdate Hfile).
Qed.

Lemma ask_question_run φ σ q d vector_store :
  φ FindOne = None →
  φ LoadLocal = None →
  find_doc (question_session_id q) (sessions σ) = Some d →
  pdf_processed d = true →
  disk σ !! index_path (question_session_id q) = Some (Saved vector_store) →
  ask_question φ q σ
  = (match qa_invoke vector_store (question q) with
     | Ok answer => Ok (AnswerResponse answer)
     | Raise e => Raise (HTTPException 500 ("Error answering question: " +:+ str e))
     end, σ).
Proof.
  intros Hfind Hload Hd Hflag Hdisk.
  unfold ask_question, mbind, M_bind, bind, find_one.
  rewrite io_no_fault by done. rewrite Hd, Hflag. simpl.
  unfold try_except, path_exists, load_local, lift, io.
  rewrite Hdisk, Hload. rewrite bool_decide_eq_true_2 by eauto. simpl.
  rewrite Hdisk. by destruct (qa_invoke vector_store (question q)).
Qed.

(** Under any storage faults, an upload leaves the documents as they were or
    marks the (known) session processed, and leaves the disk as it was or
    with the directory of the session written (an index, or what a failing
    [save_local] left). *)
Lemma upload_pdf_store_any φ σ id file :
  let '(r, σ') := upload_pdf φ id file σ in
  (sessions σ' = sessions σ
   ∨ (sessions σ' = set_processed id (filename file) (sessions σ) ∧ id ∈ ids σ))
  ∧ (disk σ' = disk σ
     ∨ ∃ d, disk σ' = <[index_path id := d]> (disk σ)).
Proof.
  unfold upload_pdf, raise.
  destruct (endswith (filename file) ".pdf"); simpl; [|simpl; by auto].
  unfold mbind, M_bind, bind, find_one, io.
  destruct (φ FindOne); [simpl; by auto|].
  destruct (find_doc id (sessions σ)) as [d|] eqn:Hd; [|simpl; by auto].
  assert (id ∈ ids σ) as Hid by (apply find_doc_known; eauto).
  unfold process_pdf, try_except, mbind, M_bind, bind, lift, raise.
  destruct (PdfReader (stream file)) as [pages|e]; [|simpl; by auto].
  pose proof (extract_pages_store pages "" σ) as Hloop.
  destruct (extract_pages pages "" σ) as [[text|e] σ0]; simpl in Hloop; subst σ0;
    [|simpl; by auto].
  destruct (negb (truthy (strip text))); [simpl; by auto|].
  destruct (from_texts (split_text 1000 200 text)) as [vector_store|e]; [|simpl; by auto].
  unfold save_local, update_one, io.
  destruct (φ SaveLocal); [simpl; by eauto|].
  destruct (φ UpdateOne); simpl; split; eauto.
Qed.

End runs.

(** ** What the handlers answer *)

Section answers.
Context `{Libraries}.
Implicit Types (φ : faults) (σ : store) (file : UploadFile) (q : Question).

(** Whatever fails inside [process_pdf], what leaves it is an
    [HTTPException] with status 500. *)
Lemma process_pdf_answers φ σ id file :
  let '(r, σ') := process_pdf φ file id σ in
  r = Ok true
  ∨ ∃ e, r = Raise (HTTPException 500 ("Error processing PDF: " +:+ str e)).
Proof.
  unfold process_pdf, try_except, mbind, M_bind, bind, lift, raise.
  destruct (PdfReader (stream file)) as [pages|e]; [|simpl; by eauto].
  destruct (extract_pages pages "" σ) as [[text|e] σ0]; [|simpl; by eauto].
  destruct (negb (truthy (strip text))); [simpl; by eauto|].
  destruct (from_texts (split_text 1000 200 text)) as [vector_store|e];
    [|simpl; by eauto].
  unfold save_local, update_one, io.
  destruct (φ SaveLocal); [simpl; by eauto|].
  destruct (φ UpdateOne); simpl; by eauto.
Qed.

(** The pages the loop of [process_pdf] got through all extracted, and the
    text is what they yielded, in order. *)
Lemma extract_pages_Ok pages text0 σ text σ' :
  extract_pages pages text0 σ = (Ok text, σ') →
  ∃ extracted, extracts pages extracted ∧ text = text0 +:+ page_texts extracted.
Proof.
  revert text0. induction pages as [|p pages IH]; intros text0; simpl.
  - intros [= <- _]. exists []. split; [constructor|].
    unfold page_texts. simpl. by rewrite append_empty_r.
  - unfold mbind, M_bind, bind, lift.
    destruct (extract_text p) as [x|e] eqn:Hp; [|done].
    intros Hrun. destruct (IH _ Hrun) as (extracted & Hex & ->).
    exists (x :: extracted). split; [by constructor|].
    unfold page_texts. simpl. by rewrite or_empty_default, append_assoc.
Qed.

Lemma upload_pdf_cases φ σ id file :
  φ FindOne = None →
  let '(r, σ') := upload_pdf φ id file σ in
  (r = Ok (uploaded id)
   ∧ endswith (filename file) ".pdf" = true
   ∧ id ∈ ids σ
   ∧ ∃ vector_store,
       ingestible file vector_store
       ∧ σ' = {| sessions := set_processed id (filename file) (sessions σ);
                 disk := <[index_path id := Saved vector_store]> (disk σ) |})
  ∨ r = Raise (HTTPException 400 "File must be a PDF")
  ∨ r = Raise (HTTPException 404 "Session not found")
  ∨ ∃ e, r = Raise (HTTPException 500 ("Error processing PDF: " +:+ str e)).
Proof.
  intros Hφ. unfold upload_pdf, raise.
  destruct (endswith (filename file) ".pdf") eqn:Hext; simpl; [|by auto].
  unfold mbind, M_bind, bind, find_one. rewrite io_no_fault by done.
  destruct (find_doc id (sessions σ)) as [d|] eqn:Hd; [|by auto].
  assert (id ∈ ids σ) as Hid by (apply find_doc_known; eauto).
  unfold process_pdf, try_except, mbind, M_bind, bind, lift, raise.
  destruct (PdfReader (stream file)) as [pages|e] eqn:Hread; [|simpl; by eauto 6].
  pose proof (extract_pages_store pages "" σ) as Hloop.
  destruct (extract_pages pages "" σ) as [[text|e] σ0] eqn:Hpages;
    simpl in Hloop; subst σ0; [|simpl; by eauto 6].
  apply extract_pages_Ok in Hpages as (extracted & Hex & ->).
  rewrite append_empty_l.
  destruct (strip (page_texts extracted)) as [|c t] eqn:Htext; simpl;
    [by eauto 6|].
  destruct (from_texts _) as [vector_store|e] eqn:Hindex; [|simpl; by eauto 6].
  unfold save_local, update_one, io.
  destruct (φ SaveLocal); [simpl; by eauto 6|].
  destruct (φ UpdateOne); simpl; [by eauto 6|].
  left. split; [done|]. split; [done|]. split; [done|].
  exists vector_store. split; [|done].
  exists pages, extracted. rewrite Htext. by repeat split.
Qed.

(** X1. When the session lookup itself does not fail, an upload has one of
    four answers. It succeeds only for a ".pdf" file that ingests on a known
    session, and then the session is marked processed under the file name and
    its directory holds the index built from the file. Otherwise it is
    answered 400 "File must be a PDF", 404 "Session not found", or a 500
    whose detail starts with "Error processing PDF: "; no other exception
    leaves the handler. *)
Theorem upload_pdf_answers φ σ id file :
  φ FindOne = None →
  let '(r, σ') := upload_pdf φ id file σ in
  (r = Ok (uploaded id)
   ∧ endswith (filename file) ".pdf" = true
   ∧ id ∈ ids σ
   ∧ ∃ vector_store,
       ingestible file vector_store
       ∧ σ' = {| sessions := set_processed id (filename file) (sessions σ);
                 disk := <[index_path id := Saved vector_store]> (disk σ) |})
  ∨ r = Raise (HTTPException 400 "File must be a PDF")
  ∨ r = Raise (HTTPException 404 "Session not found")
  ∨ ∃ e, r = Raise (HTTPException 500 ("Error processing PDF: " +:+ str e)).
Proof. exact (upload_pdf_cases φ σ id file). Qed.

Lemma ask_question_cases φ σ q :
  φ FindOne = None →
  let '(r, σ') := ask_question φ q σ in
  (∃ vector_store answer,
      disk σ !! index_path (question_session_id q) = Some (Saved vector_store)
      ∧ qa_invoke vector_store (question q) = Ok answer
      ∧ r = Ok (AnswerResponse answer))
  ∨ r = Raise (HTTPException 404 "Session not found")
  ∨ r = Raise (HTTPException 404 "No PDF processed for this session")
  ∨ ∃ e, r = Raise (HTTPException 500 ("Error answering question: " +:+ str e)).
Proof.
  intros Hφ. unfold ask_question, mbind, M_bind, bind, find_one, raise.
  rewrite io_no_fault by done.
  destruct (find_doc (question_session_id q) (sessions σ)) as [d|]; [|by auto].
  destruct (negb (pdf_processed d)); [by auto|].
  unfold try_except, path_exists, load_local, io, lift, raise.
  destruct (bool_decide _); simpl; [|by eauto 6].
  destruct (φ LoadLocal); [by eauto 6|].
  destruct (disk σ !! index_path (question_session_id q)) as [[vector_store|]|];
    [|by eauto 6..].
  destruct (qa_invoke vector_store (question q)) as [answer|e] eqn:Hqa; simpl.
  - left. by exists vector_store, answer.
  - by eauto 6.
Qed.

(** X2. When the session lookup itself does not fail, a question has one of
    four answers: the text the chain returned on the index saved in the
    session's directory, unchanged; 404 "Session not found"; 404 "No PDF
    processed for this session"; or a 500 whose detail starts with "Error
    answering question: ". *)
Theorem ask_question_answers φ σ q :
  φ FindOne = None →
  let '(r, σ') := ask_question φ q σ in
  (∃ vector_store answer,
      disk σ !! index_path (question_session_id q) = Some (Saved vector_store)
      ∧ qa_invoke vector_store (question q) = Ok answer
      ∧ r = Ok (AnswerResponse answer))
  ∨ r = Raise (HTTPException 404 "Session not found")
  ∨ r = Raise (HTTPException 404 "No PDF processed for this session")
  ∨ ∃ e, r = Raise (HTTPException 500 ("Error answering question: " +:+ str e)).
Proof. exact (ask_question_cases φ σ q). Qed.

(** X3. A question never changes the store: no session document and no index
    directory is written, whatever the answer and whatever storage call
    fails. *)
Theorem ask_question_read_only φ σ q :
  let '(r, σ') := ask_question φ q σ in
  sessions σ' = sessions σ ∧ disk σ' = disk σ.
Proof.
  pose proof (ask_question_store φ σ q) as Hstore.
  destruct (ask_question φ q σ) as [r σ']. simpl in Hstore. by subst σ'.
Qed.

(** X9. An upload never adds or removes a session document, whatever it
    answers and whatever storage call fails: the upsert of [update_one] does
    not insert through this endpoint. *)
Theorem upload_pdf_keeps_documents φ σ id file :
  let '(r, σ') := upload_pdf φ id file σ in
  ids σ' = ids σ.
Proof.
  pose proof (upload_pdf_store_any φ σ id file) as Hstore.
  destruct (upload_pdf φ id file σ) as [r σ'].
  destruct Hstore as [[Hdocs|[Hdocs Hid]] _]; unfold ids; rewrite Hdocs; [done|].
  by apply set_processed_known_ids.
Qed.

End answers.

(** ** Requests in sequence *)

Section sequences.
Context `{Libraries}.
Implicit Types (φ : faults) (σ : store) (file : UploadFile).

(** X4. After a successful upload, a question on the same session is answered
    from the index that upload built: with the text the chain returns on it,
    or with a 500 carrying the chain's error. The question changes nothing. *)
Theorem upload_then_ask σ id file vector_store question :
  endswith (filename file) ".pdf" = true →
  id ∈ ids σ →
  ingestible file vector_store →
  let '(r1, σ1) := upload_pdf no_faults id file σ in
  let '(r2, σ2) :=
    ask_question no_faults {| question_session_id := id; question := question |} σ1 in
  r1 = Ok (uploaded id)
  ∧ r2 = match qa_invoke vector_store question with
         | Ok answer => Ok (AnswerResponse answer)
         | Raise e => Raise (HTTPException 500 ("Error answering question: " +:+ str e))
         end
  ∧ σ2 = σ1.
Proof.
  intros Hext Hid Hfile.
  rewrite (upload_pdf_ingests no_faults σ id file vector_store) by done.
  destruct (find_doc_set_processed id (filename file) (sessions σ))
    as (d & Hd & _ & Hflag & _).
  rewrite (ask_question_run no_faults _ _ d vector_store); [done..|].
  simpl. by rewrite lookup_insert_eq.
Qed.

(** X5. A second successful upload to a session replaces the first entirely:
    the store is the one the second upload alone would have left, and the
    index directory holds the second index. *)
Theorem reupload_last_wins σ id file1 file2 vector_store1 vector_store2 :
  endswith (filename file1) ".pdf" = true →
  endswith (filename file2) ".pdf" = true →
  id ∈ ids σ →
  ingestible file1 vector_store1 →
  ingestible file2 vector_store2 →
  let '(r1, σ1) := upload_pdf no_faults id file1 σ in
  let '(r2, σ2) := upload_pdf no_faults id file2 σ1 in
  r2 = Ok (uploaded id)
  ∧ σ2 = (upload_pdf no_faults id file2 σ).2
  ∧ disk σ2 !! index_path id = Some (Saved vector_store2).
Proof.
  intros Hext1 Hext2 Hid Hfile1 Hfile2.
  rewrite (upload_pdf_ingests no_faults σ id file1 vector_store1) by done.
  assert (id ∈ session_id <$> set_processed id (filename file1) (sessions σ))
    as Hid1 by (by rewrite set_processed_known_ids).
  rewrite (upload_pdf_ingests no_faults _ id file2 vector_store2) by done.
  rewrite (upload_pdf_ingests no_faults σ id file2 vector_store2) by done.
  simpl. by rewrite set_processed_twice, insert_insert_eq, lookup_insert_eq.
Qed.

(** X6. A session that was just created is known and unprocessed: a question
    on it is answered with 404 "No PDF processed for this session". *)
Theorem create_then_ask_unprocessed σ uuid4 question :
  uuid4 ∉ ids σ →
  let '(r1, σ1) := create_session no_faults uuid4 σ in
  let '(r2, σ2) :=
    ask_question no_faults {| question_session_id := uuid4; question := question |} σ1 in
  r1 = Ok (SessionResponse uuid4)
  ∧ r2 = Raise (HTTPException 404 "No PDF processed for this session").
Proof.
  intros Hid. rewrite create_session_run by done.
  unfold ask_question, mbind, M_bind, bind, find_one, io. simpl.
  rewrite (find_doc_app_new uuid4 (sessions σ)) by done. done.
Qed.

(** X7. A session that is created with a fresh identifier and then deleted
    leaves the store as it was before, whether or not a document was
    uploaded to it in between. *)
Theorem session_lifecycle_leaves_no_trace σ uuid4 file vector_store :
  fresh uuid4 σ →
  endswith (filename file) ".pdf" = true →
  ingestible file vector_store →
  let '(r1, σ1) := create_session no_faults uuid4 σ in
  delete_session no_faults uuid4 σ1 = (Ok (deleted uuid4), σ)
  ∧ let '(r2, σ2) := upload_pdf no_faults uuid4 file σ1 in
    r2 = Ok (uploaded uuid4)
    ∧ delete_session no_faults uuid4 σ2 = (Ok (deleted uuid4), σ).
Proof.
  intros [Hid Hdir] Hext Hfile. rewrite create_session_run by done.
  set (new := {| session_id := uuid4; pdf_processed := false; pdf_name := None |}).
  assert (uuid4 ∈ ids (set_sessions (sessions σ ++ [new]) σ)) as Hnew.
  { unfold ids. simpl. rewrite fmap_app. apply elem_of_app. right.
    by apply list_elem_of_singleton. }
  split.
  - rewrite delete_session_run by done. simpl.
    rewrite Hdir, (remove_first_app_new uuid4 (sessions σ) new) by done.
    by destruct σ.
  - rewrite (upload_pdf_ingests no_faults _ uuid4 file vector_store) by done.
    split; [done|]. simpl.
    rewrite (set_processed_app_new uuid4 _ (sessions σ) new) by done.
    rewrite delete_session_run; [|done|].
    + simpl. rewrite lookup_insert_eq.
      rewrite (remove_first_app_new uuid4 (sessions σ)) by done.
      unfold set_disk, set_sessions. simpl.
      rewrite delete_insert_id by done. by destruct σ.
    + unfold ids. simpl. rewrite fmap_app. apply elem_of_app. right.
      by apply list_elem_of_singleton.
Qed.

(** X12. Once a session with a unique identifier is deleted, its index
    directory is gone and both a question and an upload that name it are
    answered with 404 "Session not found". *)
Theorem deleted_session_is_gone σ id file question :
  NoDup (ids σ) →
  id ∈ ids σ →
  endswith (filename file) ".pdf" = true →
  let '(r1, σ1) := delete_session no_faults id σ in
  r1 = Ok (deleted id)
  ∧ disk σ1 !! index_path id = None
  ∧ ask_question no_faults {| question_session_id := id; question := question |} σ1
    = (Raise (HTTPException 404 "Session not found"), σ1)
  ∧ upload_pdf no_faults id file σ1
    = (Raise (HTTPException 404 "Session not found"), σ1).
Proof.
  intros Huniq Hid Hext. rewrite delete_session_run by done. simpl.
  pose proof (remove_first_unique id (sessions σ) Huniq) as Hgone.
  apply find_doc_None in Hgone.
  assert (∀ σ1, sessions σ1 = (remove_first id (sessions σ)).2 →
    ask_question no_faults {| question_session_id := id; question := question |} σ1
    = (Raise (HTTPException 404 "Session not found"), σ1)
    ∧ upload_pdf no_faults id file σ1
      = (Raise (HTTPException 404 "Session not found"), σ1)) as Hnot_found.
  { intros σ1 Hdocs. split.
    - unfold ask_question, mbind, M_bind, bind, find_one, io. simpl.
      by rewrite Hdocs, Hgone.
    - unfold upload_pdf. rewrite Hext. simpl.
      unfold mbind, M_bind, bind, find_one, io. simpl.
      by rewrite Hdocs, Hgone. }
  destruct (disk σ !! index_path id) as [vector_store|] eqn:Hdir.
  - split; [done|]. split; [by simpl; rewrite lookup_delete_eq|].
    by apply Hnot_found.
  - split; [done|]. split; [done|]. by apply Hnot_found.
Qed.

(** X8. A request touches only the session it names: for every other
    identifier, the document that a lookup finds and the index directory are
    the same before and after, whatever the request answers and whatever
    storage call fails. *)
Theorem handle_touches_only_target φ r σ id :
  id ≠ target r →
  let '(_, σ') := handle φ r σ in
  find_doc id (sessions σ') = find_doc id (sessions σ)
  ∧ disk σ' !! index_path id = disk σ !! index_path id.
Proof.
  intros Hne. destruct r as [uuid4|id0 file|q|id0]; simpl in *.
  - pose proof (create_session_store φ σ uuid4) as Hstore.
    destruct (create_session φ uuid4 σ) as [r σ'].
    destruct Hstore as [-> | ->]; [done|]. simpl.
    by rewrite find_doc_app_other.
  - pose proof (upload_pdf_store_any φ σ id0 file) as Hstore.
    destruct (upload_pdf φ id0 file σ) as [r σ'].
    destruct Hstore as [Hdocs Hdisk]. split.
    + destruct Hdocs as [-> | [-> _]]; [done|].
      by apply find_doc_set_processed_other.
    + destruct Hdisk as [-> | [vector_store ->]]; [done|].
      apply lookup_insert_ne. intros Hpath. by apply index_path_inj in Hpath.
  - pose proof (ask_question_store φ σ q) as Hstore.
    destruct (ask_question φ q σ) as [r σ']. simpl in Hstore. by subst σ'.
  - pose proof (delete_session_store φ σ id0) as Hstore.
    destruct (delete_session φ id0 σ) as [r σ'].
    destruct Hstore as [-> | [Hdocs Hdisk]]; [done|]. split.
    + rewrite Hdocs. by apply find_doc_remove_first_other.
    + destruct Hdisk as [-> | ->]; [done|].
      apply lookup_delete_ne. intros Hpath. by apply index_path_inj in Hpath.
Qed.

End sequences.

(** ** File names and blank texts *)

Lemma substring_whole (s : string) : String.substring 0 (String.length s) s = s.
Proof. induction s as [|c s IH]; simpl; [done | by f_equal]. Qed.

Lemma substring_skip (p s : string) (m : nat) :
  String.substring (String.length p) m (p +:+ s) = String.substring 0 m s.
Proof. induction p as [|c p IH]; [done|]. rewrite append_cons. simpl. apply IH. Qed.

Lemma length_append (s1 s2 : string) :
  String.length (s1 +:+ s2) = String.length s1 + String.length s2.
Proof.
  induction s1 as [|c s1 IH]; [done|]. rewrite append_cons. simpl. by rewrite IH.
Qed.

Lemma substring_split (k : nat) (s : string) :
  k ≤ String.length s →
  s = String.substring 0 k s +:+ String.substring k (String.length s - k) s.
Proof.
  revert s. induction k as [|k IH]; intros s Hk.
  - rewrite Nat.sub_0_r, substring_whole. by destruct s.
  - destruct s as [|c s]; simpl in *; [lia|].
    rewrite append_cons. f_equal. apply IH. lia.
Qed.

(** [endswith] holds exactly for the strings made of a stem and the suffix. *)
Lemma endswith_spec (s suffix : string) :
  endswith s suffix = true ↔ ∃ stem, s = stem +:+ suffix.
Proof.
  unfold endswith. rewrite andb_true_iff, Nat.leb_le, String.eqb_eq. split.
  - intros [Hle Hsub]. exists (String.substring 0 (String.length s - String.length suffix) s).
    pose proof (substring_split (String.length s - String.length suffix) s)
      as Hsplit.
    replace (String.length s - (String.length s - String.length suffix))
      with (String.length suffix) in Hsplit by lia.
    rewrite Hsub in Hsplit. apply Hsplit. lia.
  - intros [stem ->]. rewrite length_append. split; [lia|].
    replace (String.length stem + String.length suffix - String.length suffix)
      with (String.length stem) by lia.
    by rewrite substring_skip, substring_whole.
Qed.

Lemma chars_rev_app (s1 s2 : string) :
  chars (String.rev_app s1 s2) = reverse (chars s1) ++ chars s2.
Proof.
  revert s2. induction s1 as [|c s1 IH]; intros s2; simpl; [done|].
  by rewrite IH, reverse_cons, <-app_assoc.
Qed.

Lemma chars_rev (s : string) : chars (String.rev s) = reverse (chars s).
Proof. unfold String.rev. by rewrite chars_rev_app, app_nil_r. Qed.

Lemma chars_empty (s : string) : chars s = [] ↔ s = "".
Proof. by destruct s. Qed.

Lemma lstrip_empty (s : string) :
  lstrip s = "" ↔ Forall (λ c, isspace c = true) (chars s).
Proof.
  induction s as [|c s IH]; simpl.
  - split; [by constructor | done].
  - destruct (isspace c) eqn:Hc.
    + rewrite IH. split; [by constructor | by inversion 1].
    + split; [done|]. inversion 1; congruence.
Qed.

(** What [lstrip] leaves, if anything, starts with a character that is not
    white space. *)
Lemma lstrip_head (s : string) (c : ascii) (t : string) :
  lstrip s = String c t → isspace c = false.
Proof.
  induction s as [|c0 s IH]; simpl; [done|].
  destruct (isspace c0) eqn:Hc0; [done|]. by intros [= <- _].
Qed.

(** X11. The test [not text.strip()] of [process_pdf] holds exactly when
    every character of the text is white space (the empty text included). *)
Theorem no_text_iff_all_whitespace (text : string) :
  negb (truthy (strip text)) = true ↔ Forall (λ c, isspace c = true) (chars text).
Proof.
  rewrite <-lstrip_empty. unfold strip, rstrip. split.
  - intros Hblank.
    assert (String.rev (lstrip (String.rev (lstrip text))) = "") as Hrev
      by (by destruct (String.rev _)).
    apply chars_empty in Hrev. rewrite chars_rev in Hrev.
    apply (f_equal reverse) in Hrev. rewrite reverse_involutive in Hrev.
    apply chars_empty, lstrip_empty in Hrev. rewrite chars_rev in Hrev.
    rewrite Forall_reverse in Hrev.
    destruct (lstrip text) as [|c t] eqn:Hleft; [done|].
    apply lstrip_head in Hleft. simpl in Hrev.
    apply Forall_cons in Hrev as [Hc _]. congruence.
  - by intros ->.
Qed.

Section extension.
Context `{Libraries}.

(** X10. When the session lookup itself does not fail, an upload is refused
    with 400 "File must be a PDF" exactly when its file name is not some stem
    followed by ".pdf", in these very letters. *)
Theorem upload_pdf_refuses_exactly_non_pdf (φ : faults) (σ : store) id file :
  φ FindOne = None →
  (upload_pdf φ id file σ).1 = Raise (HTTPException 400 "File must be a PDF")
  ↔ ¬ ∃ stem, filename file = stem +:+ ".pdf".
Proof.
  intros Hφ. rewrite <-endswith_spec. unfold upload_pdf, raise.
  destruct (endswith (filename file) ".pdf"); simpl; [|by split].
  split; [|done]. intros Hrun. exfalso. revert Hrun.
  unfold mbind, M_bind, bind, find_one. rewrite io_no_fault by done.
  destruct (find_doc id (sessions σ)) as [d|]; [|done].
  pose proof (process_pdf_answers φ σ id file) as Hanswer.
  destruct (process_pdf φ file id σ) as [[b|e] σ0]; simpl; [done|].
  by destruct Hanswer as [[=]|[e' [= ->]]].
Qed.

End extension.

(** ** The model chosen at start-up *)

Lemma available_models_elem_of (models : list Model) (name : string) :
  contains "gemini" (lower name) = true →
  name ∈ available_models models ↔ offers models name.
Proof.
  intros Hname. unfold available_models, offers.
  rewrite list_elem_of_fmap. split.
  - intros (m & -> & Hm). apply list_elem_of_In, filter_In in Hm as [Hm Hkeep].
    apply andb_true_iff in Hkeep as [_ Hgen]. apply bool_decide_eq_true in Hgen.
    exists m. split; [by apply list_elem_of_In | done].
  - intros (m & Hm & <- & Hgen). exists m. split; [done|].
    apply list_elem_of_In, filter_In. split; [by apply list_elem_of_In|].
    rewrite Hname. by apply bool_decide_eq_true.
Qed.

(** X13. The model chosen from a listing is "gemini-2.5-pro" exactly when a
    listed model carries this very name and generates content, and
    "gemini-2.0-flash" in every other case, listed or not. *)
Theorem model_to_use_choice (models : list Model) :
  (model_to_use (available_models models) = "gemini-2.5-pro"
     ↔ offers models "gemini-2.5-pro")
  ∧ (model_to_use (available_models models) = "gemini-2.0-flash"
     ↔ ¬ offers models "gemini-2.5-pro").
Proof.
  rewrite <-(available_models_elem_of models "gemini-2.5-pro") by reflexivity.
  unfold model_to_use. simpl.
  destruct (bool_decide_reflect ("gemini-2.5-pro" ∈ available_models models))
    as [Hpro|Hpro].
  - split; split; [done | done | done | by intros Hno].
  - destruct (bool_decide ("gemini-2.0-flash" ∈ available_models models));
      split; split; done.
Qed.

(** X14. Start-up ends with a client whenever the client of
    "gemini-2.0-flash" can be built, whatever the configuration and the
    listing do; the model is then one of the two preferred names, and it is
    "gemini-2.0-flash" when the configuration or the listing raises. *)
Theorem select_llm_falls_back {LLM : Type}
    (configure : result ()) (list_models : result (list Model))
    (ChatGoogleGenerativeAI : string → result LLM) (flash : LLM) :
  ChatGoogleGenerativeAI "gemini-2.0-flash" = Ok flash →
  (∃ model llm,
      select_llm configure list_models ChatGoogleGenerativeAI = Ok (model, llm)
      ∧ ChatGoogleGenerativeAI model = Ok llm
      ∧ (model = "gemini-2.5-pro" ∨ model = "gemini-2.0-flash"))
  ∧ ((∃ e, configure = Raise e) ∨ (∃ e, list_models = Raise e) →
     select_llm configure list_models ChatGoogleGenerativeAI
     = Ok ("gemini-2.0-flash", flash)).
Proof.
  intros Hflash. unfold select_llm. split.
  - destruct configure as [[]|e]; [|rewrite Hflash; by eauto 6].
    destruct list_models as [models|e]; [|rewrite Hflash; by eauto 6].
    destruct (ChatGoogleGenerativeAI (model_to_use (available_models models)))
      as [llm|e] eqn:Hllm; [|rewrite Hflash; by eauto 6].
    exists (model_to_use (available_models models)), llm.
    split; [done|]. split; [done|].
    unfold model_to_use. simpl.
    destruct (bool_decide ("gemini-2.5-pro" ∈ available_models models)); [by left|].
    destruct (bool_decide ("gemini-2.0-flash" ∈ available_models models)); by right.
  - intros [[e ->]|[e ->]]; [by rewrite Hflash|].
    destruct configure as [[]|e']; by rewrite Hflash.
Qed.

(** ** The client against the server *)

Lemma remove_elem_of (x y : string) (l : list string) :
  y ∈ app.remove x l → y ∈ l.
Proof.
  induction l as [|z l IH]; simpl; [done|].
  destruct (String.eqb z x).
  - intros Hy. by apply elem_of_cons; right.
  - rewrite !elem_of_cons. intros [Hy|Hy]; [by left | right; by apply IH].
Qed.


Lemma remove_NoDup (x : string) (l : list string) :
  NoDup l → NoDup (app.remove x l) ∧ x ∉ app.remove x l.
Proof.
  induction l as [|z l IH]; simpl; [intros _; split; [constructor | apply not_elem_of_nil]|].
  rewrite NoDup_cons. intros [Hz Hl].
  destruct (String.eqb_spec z x) as [->|Hne]; [done|].
  destruct (IH Hl) as [Hnodup Hx]. split.
  - apply NoDup_cons. split; [|done]. intros Hin. by apply remove_elem_of in Hin.
  - rewrite not_elem_of_cons. split; [congruence | done].
Qed.


Section client.
Context `{Libraries}.
Implicit Types (φ : faults) (σ : store) (st : app.SessionState).



End client.

Section agreement.
Context `{Libraries}.
Implicit Types (φ : faults) (σ : store) (st : app.SessionState).






End agreement.

Section clicks.
Context `{Libraries}.
Implicit Types (φ : faults) (σ : store) (st : app.SessionState).






(** X18. Deleting a listed session from the page, on a server with unique
    identifiers and storage that answers, removes every trace of it: the
    page reruns without the session in its list, without its chat history
    and file list and without selecting it, and the server holds neither
    its document nor its index directory. *)
Theorem click_delete_removes_all_traces φ id st σ :
  agree st σ →
  NoDup (ids σ) →
  id ∈ app.sessions st →
  φ DeleteOne = None →
  φ Rmtree = None →
  let '(o, st', σ') := run_click φ (ClickDelete id) st σ in
  o = app.Rerun
  ∧ (id ∉ app.sessions st')
  ∧ app.chat_history st' !! id = None
  ∧ app.uploaded_files st' !! id = None
  ∧ app.session_id st' ≠ Some id
  ∧ (id ∉ ids σ')
  ∧ disk σ' !! index_path id = None.
Proof.
  intros (Hnodup & Hlisted & Hcurrent) Huniq Hid Hdel Hrm. simpl.
  destruct (Hlisted id Hid) as (Hserver & _).
  rewrite delete_session_run, Hrm by done.
  pose proof (remove_first_unique id (sessions σ) Huniq) as Hgone.
  destruct (remove_NoDup id _ Hnodup) as [_ Hunlisted].
  destruct (disk σ !! index_path id) eqn:Hdir; simpl;
    rewrite bool_decide_eq_true_2 by done; simpl;
    rewrite !lookup_delete_eq;
    repeat split; try done; by case_bool_decide.
Qed.

End clicks.

(** ** The further statements on sample stores *)

Lemma notes_pdf_ingestible :
  @ingestible mock notes_pdf ["The capital of Freedonia is Lastonia."].
Proof.
  exists [Some "The capital of Freedonia "; None; Some "is Lastonia."],
         [Some "The capital of Freedonia "; None; Some "is Lastonia."].
  split; [reflexivity|]. split; [exact notes_pdf_extracts|].
  split; [by vm_compute | reflexivity].
Qed.

Lemma errata_pdf_ingestible :
  @ingestible mock errata_pdf ["The capital of Freedonia is Fredville."].
Proof.
  exists [Some "The capital of Freedonia is Fredville."],
         [Some "The capital of Freedonia is Fredville."].
  split; [reflexivity|]. split; [repeat constructor|].
  split; [by vm_compute | reflexivity].
Qed.

Lemma s1_known : "s1" ∈ @ids mock store_pending.
Proof. apply list_elem_of_singleton. reflexivity. Qed.

Lemma s2_unknown : "s2" ∉ @ids mock store_pending.
Proof. apply not_elem_of_cons. split; [discriminate | apply not_elem_of_nil]. Qed.

Lemma page_one_agrees : @agree mock page_one store_pending.
Proof.
  split; [apply NoDup_singleton|]. split.
  - intros id Hid. apply list_elem_of_singleton in Hid as ->.
    split; [exact s1_known|]. split; by vm_compute; eauto.
  - intros id [= <-]. by apply list_elem_of_singleton.
Qed.

Lemma upload_pdf_answers_witness :
  let '(r, σ') := @upload_pdf mock update_down "s1" notes_pdf store_pending in
  (r = Ok (uploaded "s1")
   ∧ endswith (@filename mock notes_pdf) ".pdf" = true
   ∧ "s1" ∈ @ids mock store_pending
   ∧ ∃ vector_store,
       @ingestible mock notes_pdf vector_store
       ∧ σ' = {| sessions := set_processed "s1" (@filename mock notes_pdf)
                               (@sessions mock store_pending);
                 disk := <[index_path "s1" := Saved vector_store]>
                           (@disk mock store_pending) |})
  ∨ r = Raise (HTTPException 400 "File must be a PDF")
  ∨ r = Raise (HTTPException 404 "Session not found")
  ∨ ∃ e, r = Raise (HTTPException 500 ("Error processing PDF: " +:+ @str mock e)).
Proof.
  apply (upload_pdf_answers (H := mock) update_down store_pending "s1" notes_pdf).
  reflexivity.
Defined.

Lemma ask_question_answers_witness :
  let '(r, σ') := @ask_question mock no_faults capital store_processed in
  (∃ vector_store answer,
      @disk mock store_processed !! index_path (question_session_id capital)
      = Some (Saved vector_store)
      ∧ @qa_invoke mock vector_store (question capital) = Ok answer
      ∧ r = Ok (AnswerResponse answer))
  ∨ r = Raise (HTTPException 404 "Session not found")
  ∨ r = Raise (HTTPException 404 "No PDF processed for this session")
  ∨ ∃ e, r = Raise (HTTPException 500 ("Error answering question: " +:+ @str mock e)).
Proof.
  apply (ask_question_answers (H := mock) no_faults store_processed capital).
  reflexivity.
Defined.

Lemma upload_then_ask_witness :
  let '(r1, σ1) := @upload_pdf mock no_faults "s1" notes_pdf store_pending in
  let '(r2, σ2) := @ask_question mock no_faults capital σ1 in
  r1 = Ok (uploaded "s1")
  ∧ r2 = match @qa_invoke mock ["The capital of Freedonia is Lastonia."]
                 "What is the capital of Freedonia?" with
         | Ok answer => Ok (AnswerResponse answer)
         | Raise e =>
             Raise (HTTPException 500 ("Error answering question: " +:+ @str mock e))
         end
  ∧ σ2 = σ1.
Proof.
  apply (upload_then_ask (H := mock) store_pending "s1" notes_pdf
           ["The capital of Freedonia is Lastonia."]
           "What is the capital of Freedonia?").
  - reflexivity.
  - exact s1_known.
  - exact notes_pdf_ingestible.
Defined.

Lemma reupload_last_wins_witness :
  let '(r1, σ1) := @upload_pdf mock no_faults "s1" notes_pdf store_pending in
  let '(r2, σ2) := @upload_pdf mock no_faults "s1" errata_pdf σ1 in
  r2 = Ok (uploaded "s1")
  ∧ σ2 = (@upload_pdf mock no_faults "s1" errata_pdf store_pending).2
  ∧ @disk mock σ2 !! index_path "s1"
    = Some (@Saved mock ["The capital of Freedonia is Fredville."]).
Proof.
  apply (reupload_last_wins (H := mock) store_pending "s1" notes_pdf errata_pdf
           ["The capital of Freedonia is Lastonia."]
           ["The capital of Freedonia is Fredville."]).
  - reflexivity.
  - reflexivity.
  - exact s1_known.
  - exact notes_pdf_ingestible.
  - exact errata_pdf_ingestible.
Defined.

Lemma create_then_ask_unprocessed_witness :
  let '(r1, σ1) := @create_session mock no_faults "s2" store_pending in
  let '(r2, σ2) :=
    @ask_question mock no_faults
      {| question_session_id := "s2"; question := "What is the capital of Freedonia?" |}
      σ1 in
  r1 = Ok (SessionResponse "s2")
  ∧ r2 = Raise (HTTPException 404 "No PDF processed for this session").
Proof.
  apply (create_then_ask_unprocessed (H := mock) store_pending "s2"
           "What is the capital of Freedonia?").
  exact s2_unknown.
Defined.

Lemma session_lifecycle_leaves_no_trace_witness :
  let '(r1, σ1) := @create_session mock no_faults "s2" store_pending in
  @delete_session mock no_faults "s2" σ1 = (Ok (deleted "s2"), store_pending)
  ∧ let '(r2, σ2) := @upload_pdf mock no_faults "s2" notes_pdf σ1 in
    r2 = Ok (uploaded "s2")
    ∧ @delete_session mock no_faults "s2" σ2 = (Ok (deleted "s2"), store_pending).
Proof.
  apply (session_lifecycle_leaves_no_trace (H := mock) store_pending "s2" notes_pdf
           ["The capital of Freedonia is Lastonia."]).
  - split; [exact s2_unknown | reflexivity].
  - reflexivity.
  - exact notes_pdf_ingestible.
Defined.

Lemma deleted_session_is_gone_witness :
  let '(r1, σ1) := @delete_session mock no_faults "s1" store_processed in
  r1 = Ok (deleted "s1")
  ∧ @disk mock σ1 !! index_path "s1" = None
  ∧ @ask_question mock no_faults
      {| question_session_id := "s1"; question := "What is the capital of Freedonia?" |}
      σ1
    = (Raise (HTTPException 404 "Session not found"), σ1)
  ∧ @upload_pdf mock no_faults "s1" notes_pdf σ1
    = (Raise (HTTPException 404 "Session not found"), σ1).
Proof.
  apply (deleted_session_is_gone (H := mock) store_processed "s1" notes_pdf
           "What is the capital of Freedonia?").
  - apply NoDup_singleton.
  - apply list_elem_of_singleton. reflexivity.
  - reflexivity.
Defined.

Lemma handle_touches_only_target_witness :
  let '(_, σ') := @handle mock rmtree_denied (Delete "s1") store_two in
  find_doc "s2" (@sessions mock σ') = find_doc "s2" (@sessions mock store_two)
  ∧ @disk mock σ' !! index_path "s2" = @disk mock store_two !! index_path "s2".
Proof.
  apply (handle_touches_only_target (H := mock) rmtree_denied (Delete "s1")
           store_two "s2").
  simpl. discriminate.
Defined.

Lemma upload_pdf_refuses_exactly_non_pdf_witness :
  (@upload_pdf mock no_faults "s1" notes_txt store_pending).1
  = Raise (HTTPException 400 "File must be a PDF")
  ↔ ¬ ∃ stem, @filename mock notes_txt = stem +:+ ".pdf".
Proof.
  apply (upload_pdf_refuses_exactly_non_pdf (H := mock) no_faults store_pending
           "s1" notes_txt).
  reflexivity.
Defined.

Lemma select_llm_falls_back_witness :
  (∃ model llm,
      select_llm (Raise (OtherError "API key not valid")) (Ok listing_bare)
        (λ model, Ok model)
      = Ok (model, llm)
      ∧ (λ model : string, @Ok string model) model = Ok llm
      ∧ (model = "gemini-2.5-pro" ∨ model = "gemini-2.0-flash"))
  ∧ ((∃ e, Raise (OtherError "API key not valid") = @Raise () e)
     ∨ (∃ e, Ok listing_bare = Raise e) →
     select_llm (Raise (OtherError "API key not valid")) (Ok listing_bare)
       (λ model, Ok model)
     = Ok ("gemini-2.0-flash", "gemini-2.0-flash")).
Proof.
  apply (select_llm_falls_back (LLM := string)
           (Raise (OtherError "API key not valid")) (Ok listing_bare)
           (λ model, Ok model) "gemini-2.0-flash").
  reflexivity.
Defined.




Lemma click_delete_removes_all_traces_witness :
  let '(o, st', σ') :=
    @run_click mock no_faults (ClickDelete "s1") page_one store_pending in
  o = app.Rerun
  ∧ ("s1" ∉ app.sessions st')
  ∧ app.chat_history st' !! "s1" = None
  ∧ app.uploaded_files st' !! "s1" = None
  ∧ app.session_id st' ≠ Some "s1"
  ∧ ("s1" ∉ @ids mock σ')
  ∧ @disk mock σ' !! index_path "s1" = None.
Proof.
  apply (click_delete_removes_all_traces (H := mock) no_faults "s1"
           page_one store_pending).
  - exact page_one_agrees.
  - apply NoDup_singleton.
  - apply list_elem_of_singleton. reflexivity.
  - reflexivity.
  - reflexivity.
Defined.

Section failures.
Context `{Libraries}.

(** X19. When the two writes of an ingestion are not cut short, an upload
    that is answered with an error has changed nothing: every failure (file
    name, lookup, unknown session, unreadable PDF, page that does not
    extract, blank text, embedding) happens before the first write. *)
Theorem upload_pdf_error_changes_nothing (φ : faults) (σ : store) id file :
  φ SaveLocal = None →
  φ UpdateOne = None →
  let '(r, σ') := upload_pdf φ id file σ in
  (∃ e, r = Raise e) → σ' = σ.
Proof.
  intros Hsave Hupdate. unfold upload_pdf, raise.
  destruct (endswith (filename file) ".pdf"); simpl; [|done].
  unfold mbind, M_bind, bind, find_one, io.
  destruct (φ FindOne); [done|].
  destruct (find_doc id (sessions σ)); [|done].
  pose proof (process_pdf_store φ σ id file Hsave Hupdate) as Hstore.
  destruct (process_pdf φ file id σ) as [[b|e] σ0].
  - by intros [e [=]].
  - intros _. by destruct Hstore as [(e' & _ & ->)|[[=] _]].
Qed.

End failures.

Lemma upload_pdf_error_changes_nothing_witness :
  let '(r, σ') := @upload_pdf mock rmtree_denied "s1" scan_pdf store_processed in
  (∃ e, r = Raise e) → σ' = store_processed.
Proof.
  apply (upload_pdf_error_changes_nothing (H := mock) rmtree_denied
           store_processed "s1" scan_pdf).
  - reflexivity.
  - reflexivity.
Defined.

(** ** Ingestion cut short while saving, and the options of the splitter *)

(** The condition on [save_local] in the invariant theorem is needed: when
    [save_local] raises while writing, the upload is answered with 500 and
    the index directory is left behind, without a complete index, while the
    document is still flagged unprocessed. *)
Lemma upload_save_fault_inconsistent :
  invariant store_pending
  ∧ let '(r, σ') := @upload_pdf mock save_down "s1" notes_pdf store_pending in
    r = Raise (HTTPException 500 "Error processing PDF: No space left on device")
    ∧ sessions σ' = [pending]
    ∧ disk σ' !! "faiss_index_s1" = Some (@Incomplete mock)
    ∧ ¬ invariant σ'.
Proof.
  split; [exact store_pending_invariant|].
  vm_compute upload_pdf.
  split; [reflexivity|]. split; [reflexivity|]. split; [by vm_compute|].
  intros [_ Hcons].
  destruct (Hcons pending) as [Hflag _]; [by apply list_elem_of_singleton|].
  assert (pdf_processed pending = true) as Hprocessed; [|done].
  apply Hflag. vm_compute. eauto.
Qed.

(** An ingestion that returns has saved an index built from the chunks the
    splitter made with chunk size 1000 and chunk overlap 200. *)
Lemma process_pdf_Ok `{Libraries} (φ : faults) (σ σ' : store) id file b :
  process_pdf φ file id σ = (Ok b, σ') →
  ∃ text vector_store,
    from_texts (split_text 1000 200 text) = Ok vector_store
    ∧ disk σ' = <[index_path id := Saved vector_store]> (disk σ).
Proof.
  unfold process_pdf, try_except, mbind, M_bind, bind, lift, raise.
  destruct (PdfReader (stream file)) as [pages|e]; [|done].
  pose proof (extract_pages_store pages "" σ) as Hloop.
  destruct (extract_pages pages "" σ) as [[text|e] σ0]; simpl in Hloop; subst σ0;
    [|done].
  destruct (negb (truthy (strip text))); [done|].
  destruct (from_texts (split_text 1000 200 text)) as [vector_store|e] eqn:Hindex;
    [|done].
  unfold save_local, update_one, io.
  destruct (φ SaveLocal); [done|].
  destruct (φ UpdateOne); [done|].
  intros [= _ <-]. by exists text, vector_store.
Qed.

(** The settings depend on the three variables the module reads, and on no
    other variable of the environment. *)
Lemma load_settings_reads_three (environ1 environ2 : gmap string string) :
  (∀ name, name ∈ ["MONGO_URL"; "DB_NAME"; "GOOGLE_AI_API_KEY"] →
     environ1 !! name = environ2 !! name) →
  load_settings environ1 = load_settings environ2.
Proof.
  intros Hsame. unfold load_settings, getenv.
  rewrite !Hsame; [done|..]; repeat constructor.
Qed.

(** C9 fails as stated: chunk length and overlap are no configuration
    options. The settings the server reads are the same whether or not the
    environment asks for other chunks; on the sample upload the splitter is
    constructed with 1000 and 200; and no request, store or storage fault
    makes an ingestion save an index split with any other pair. *)
Lemma chunking_not_configurable :
  load_settings environ_chunks = load_settings environ_plain
  ∧ (let '(r, σ') := @process_pdf probe no_faults notes_probe "s1" store_probe in
     r = Ok true
     ∧ disk σ' !! "faiss_index_s1"
       = Some (@Saved probe ["chunk_size=1000"; "chunk_overlap=200"]))
  ∧ ¬ ∃ (φ : faults) (file : @UploadFile probe) (id : string)
        (σ σ' : @store probe) (chunks : list string),
        @process_pdf probe φ file id σ = (Ok true, σ')
        ∧ disk σ' !! index_path id = Some (@Saved probe chunks)
        ∧ chunks ≠ ["chunk_size=1000"; "chunk_overlap=200"].
Proof.
  split; [by vm_compute|]. split.
  - vm_compute process_pdf. split; [reflexivity | by vm_compute].
  - intros (φ & file & id & σ & σ' & chunks & Hrun & Hdisk & Hother).
    apply (process_pdf_Ok (H := probe)) in Hrun as (text & vector_store & Hindex & Hsaved).
    rewrite Hsaved, lookup_insert_eq in Hdisk.
    injection Hdisk as <-. injection Hindex as <-. by apply Hother.
Qed.
